(** * Token delegation and validation engine of the pet-care agents

    A shallow embedding of the authentication core of the repository:

    - [Middleware]    : src/agents/appointments_agent/middleware.py
    - [TokenExchange] : src/orchestrator/token_exchange.py
    - [Orchestrator]  : src/orchestrator/agent.py and
                        src/agents/orchestrator_agent/agent.py ([talk_to_agent])
    - [UserAuth]      : src/orchestrator/user_auth.py (device flow)
    - [BrowserAuth]   : src/agents/orchestrator_agent/browser_auth.py
    - [AgentSetup]    : src/orchestrator/token_exchange.py ([AgentConfig])
    - [Discovery]     : src/agents/orchestrator_agent/agent.py
                        ([get_agent_config_from_env])
    - [MasterTokenRefresh] : src/orchestrator/user_auth.py
                        ([refresh_master_token])
    - [Delegation]    : src/agents/orchestrator_agent/browser_auth.py
                        (the callback listener and the delegation flow)

    Python dictionaries are [gmap]s, [None]-able values are [option]s or
    [JNull], exceptions are the [Raise] branch of [result], and the mutable
    objects ([self], the module globals, the clock and the network) are
    threaded explicitly.  Wall-clock time is counted in whole seconds. *)

From stdpp Require Import base option list strings gmap.
From Stdlib Require Import ZArith Lia Ascii.

#[local] Open Scope string_scope.
#[local] Open Scope list_scope.
#[local] Open Scope Z_scope.

(** ** Python values, exceptions and string helpers *)

Module Py.

(** The JSON values that occur in claims, key sets and token responses. *)
Inductive jval :=
| JNull
| JNum (n : Z)
| JStr (s : string)
| JList (l : list string).

#[global] Instance jval_eq_dec : EqDecision jval.
Proof. solve_decision. Defined.

(** A JSON object / Python [dict] with string keys. *)
Abbreviation dict := (gmap string jval).

(** The message carried by a [JWTError]. *)
Inductive jwt_msg :=
| LibraryMsg (m : string)                         (* raised inside python-jose *)
| KeyNotFound (kid : jval)                        (* "Public key not found for kid: ..." *)
| InvalidAudience (expected : list string) (got : jval)
| ValidationFailed (inner : jwt_msg).             (* "Token validation failed: ..." *)

Inductive exn :=
| JWTError (m : jwt_msg)
| KeyError (k : string)
| TypeError
| ValueError                (* [response.json()] on a body that is not JSON *)
| NameError (n : string)
| HTTPStatusError (code : Z)
| TransportError            (* requests / httpx could not obtain a usable response *)
| TimeoutError
| Exception (m : string).   (* a bare [Exception(...)] raised by the code *)

Inductive result (A : Type) :=
| Ok (a : A)
| Raise (e : exn).
Arguments Ok {A} a.
Arguments Raise {A} e.

(** [d.get(k)]: absent and [null] are both [None]. *)
Definition get (d : dict) (k : string) : jval := default JNull (d !! k).

(** [d[k]]: raises [KeyError] when absent. *)
Definition item (d : dict) (k : string) : result jval :=
  match d !! k with
  | Some v => Ok v
  | None => Raise (KeyError k)
  end.

(** Truth value of a JSON value. *)
Definition truthy_val (v : jval) : bool :=
  match v with
  | JNull => false
  | JNum n => negb (n =? 0)
  | JStr s => negb (String.eqb s "")
  | JList l => negb (bool_decide (l = []))
  end.

(** Truth value of a string: only the empty string is falsy. *)
Definition truthy (s : string) : bool := negb (String.eqb s "").

(** [o or d] for an optional string [o]. *)
Definition or_str (o : option string) (d : string) : string :=
  match o with
  | Some s => if truthy s then s else d
  | None => d
  end.

(** [x in l] for a JSON value [x] and a list of strings [l]: only a string
    can be equal to a member; a list-valued claim is never a member. *)
Definition in_strs (x : jval) (l : list string) : bool :=
  match x with
  | JStr s => bool_decide (s ∈ l)
  | _ => false
  end.

Definition lower_char (a : ascii) : ascii :=
  let n := nat_of_ascii a in
  if ((65 <=? n)%nat && (n <=? 90)%nat)%bool then ascii_of_nat (n + 32) else a.

(** [s.lower()] on one-byte characters. *)
Fixpoint lower (s : string) : string :=
  match s with
  | EmptyString => EmptyString
  | String a s' => String (lower_char a) (lower s')
  end.

(** Python's whitespace among one-byte characters. *)
Definition is_space (a : ascii) : bool :=
  let n := nat_of_ascii a in
  (((9 <=? n) && (n <=? 13)) || ((28 <=? n) && (n <=? 32))
   || (n =? 133) || (n =? 160))%nat%bool.

(** [s.split()]: the maximal runs of non-whitespace characters. [cur] is
    the run being read. *)
Fixpoint split_from (cur : option string) (s : string) : list string :=
  match s with
  | EmptyString => match cur with Some c => [c] | None => [] end
  | String a s' =>
      if is_space a then
        match cur with
        | Some c => c :: split_from None s'
        | None => split_from None s'
        end
      else
        split_from (Some (match cur with
                          | Some c => c +:+ String a EmptyString
                          | None => String a EmptyString
                          end)) s'
  end.

Definition split (s : string) : list string := split_from None s.

(** [s.startswith(p)]. *)
Definition startswith (s p : string) : bool := String.prefix p s.

(** [p in s] for strings: [p] occurs in [s]. *)
Fixpoint contains (p s : string) : bool :=
  String.prefix p s ||
  match s with
  | EmptyString => false
  | String _ s' => contains p s'
  end.

End Py.
Export Py.

#[global] Instance result_ret : MRet result := fun A a => Ok a.
#[global] Instance result_bind : MBind result := fun A B f m =>
  match m with
  | Ok a => f a
  | Raise e => Raise e
  end.

(** ** The bearer token verifier (middleware.py) *)

(** The key handed to [jwt.decode]: the five members copied from the
    matching JWKS entry. *)
Record rsa_key := RsaKey {
  rk_kty : jval; rk_kid : jval; rk_use : jval; rk_n : jval; rk_e : jval }.

(** python-jose is a third-party library; the verifier is modelled over
    any implementation of the three functions it calls.
    [decode token key issuer now] stands for
    [jwt.decode(token, key, algorithms=['RS256'], issuer=issuer,
    options={verify_signature, verify_exp, verify_iss: True, verify_aud: False})]
    evaluated at time [now]. *)
Class Jose := {
  get_unverified_header : string -> result dict;
  get_unverified_claims : string -> result dict;
  decode : string -> rsa_key -> string -> Z -> result dict }.

Module Middleware.

(** A JWKS document: a JSON object whose members are lists of objects
    (the member ["keys"] is the one the verifier reads). *)
Abbreviation jwks_doc := (gmap string (list dict)).

(** What [requests.get(jwks_url)], [raise_for_status()] and [json()]
    yield together. *)
Inductive fetch_outcome :=
| FetchOk (doc : jwks_doc)
| FetchFail.

(** The verifier's surroundings: the clock, the answers the JWKS endpoint
    will give to the next requests, and the number of requests made. *)
Record world := World {
  now : Z;
  jwks_endpoint : list fetch_outcome;
  fetches : nat }.

Definition requests_get (w : world) : fetch_outcome * world :=
  match jwks_endpoint w with
  | o :: rest => (o, World (now w) rest (S (fetches w)))
  | [] => (FetchFail, World (now w) [] (S (fetches w)))
  end.

Record AsgardeoJWTMiddleware := Mw {
  jwks_url : string;
  issuer : string;
  required_scope : string;
  agent_id : string;
  api_resource_identifier : string;
  enabled : bool;
  valid_audiences : list string;
  _jwks_cache : option jwks_doc;
  _jwks_cache_time : option Z;
  _jwks_cache_duration : Z;
  _public_paths : list string }.

Definition set_jwks_cache (self : AsgardeoJWTMiddleware) (doc : jwks_doc) (t : Z)
  : AsgardeoJWTMiddleware :=
  Mw (jwks_url self) (issuer self) (required_scope self) (agent_id self)
     (api_resource_identifier self) (enabled self) (valid_audiences self)
     (Some doc) (Some t) (_jwks_cache_duration self) (_public_paths self).

(** [AsgardeoJWTMiddleware.__init__]; [environ] is [os.environ]. *)
Definition __init__ (environ : gmap string string)
    (jwks_url issuer required_scope : string)
    (agent_id api_resource_identifier : option string) (enabled : bool)
  : AsgardeoJWTMiddleware :=
  let agent_id := or_str agent_id (default "" (environ !! "APPOINTMENTS_APP_ID")) in
  let api_resource_identifier :=
    or_str api_resource_identifier (default "" (environ !! "API_RESOURCE_IDENTIFIER")) in
  let valid_audiences :=
    ((if truthy agent_id then [agent_id] else []) ++
     (if truthy api_resource_identifier then [api_resource_identifier] else []))%list in
  Mw jwks_url issuer required_scope agent_id api_resource_identifier enabled
     valid_audiences None None 86400
     ["/.well-known/agent-card.json"; "/health"].

Definition _is_public_path (self : AsgardeoJWTMiddleware) (path : string) : bool :=
  existsb (fun public_path => startswith path public_path) (_public_paths self).

Definition _get_jwks (self : AsgardeoJWTMiddleware) (w : world)
  : result jwks_doc * AsgardeoJWTMiddleware * world :=
  let current_time := now w in
  let refetch :=
    match requests_get w with
    | (FetchOk doc, w') => (Ok doc, set_jwks_cache self doc current_time, w')
    | (FetchFail, w') =>
        match _jwks_cache self with
        | Some c => if bool_decide (c = ∅) then (Raise TransportError, self, w')
                    else (Ok c, self, w')
        | None => (Raise TransportError, self, w')
        end
    end in
  match _jwks_cache self, _jwks_cache_time self with
  | Some c, Some t =>
      if current_time - t <? _jwks_cache_duration self then (Ok c, self, w)
      else refetch
  | _, _ => refetch
  end.

(** The loop of step 3: the first entry whose ['kid'] equals [key_id]. *)
Fixpoint find_key (keys : list dict) (key_id : jval) : result (option rsa_key) :=
  match keys with
  | [] => Ok None
  | key :: rest =>
      kid ← item key "kid";
      if bool_decide (kid = key_id) then
        kty ← item key "kty";
        kid' ← item key "kid";
        use ← item key "use";
        n ← item key "n";
        e ← item key "e";
        Ok (Some (RsaKey kty kid' use n e))
      else find_key rest key_id
  end.

Definition jwks_keys (jwks : jwks_doc) : result (list dict) :=
  match jwks !! "keys" with
  | Some ks => Ok ks
  | None => Raise (KeyError "keys")
  end.

(** The [except JWTError as e: raise JWTError(f"Token validation failed: ...")]
    handler; every other exception passes through. *)
Definition rewrap {A} (r : result A) : result A :=
  match r with
  | Raise (JWTError m) => Raise (JWTError (ValidationFailed m))
  | _ => r
  end.

Definition _validate_token `{Jose} (self : AsgardeoJWTMiddleware) (token : string)
    (w : world) : result dict * AsgardeoJWTMiddleware * world :=
  let '(rj, self1, w1) := _get_jwks self w in
  let r :=
    jwks ← rj;
    unverified_header ← get_unverified_header token;
    let key_id := get unverified_header "kid" in
    keys ← jwks_keys jwks;
    rsa_key ← find_key keys key_id;
    match rsa_key with
    | None => Raise (JWTError (KeyNotFound key_id))
    | Some rsa_key =>
        unverified_payload ← get_unverified_claims token;
        payload ← decode token rsa_key (issuer self1) (now w1);
        let token_audience := get payload "aud" in
        if (negb (bool_decide (valid_audiences self1 = []))
            && negb (in_strs token_audience (valid_audiences self1)))%bool
        then Raise (JWTError (InvalidAudience (valid_audiences self1) token_audience))
        else Ok payload
    end in
  (rewrap r, self1, w1).

Record Request := Req {
  path : string;                    (* request.url.path *)
  authorization : option string }.  (* request.headers.get('Authorization') *)

Inductive description :=
| Text (s : string)
| ErrorText (m : jwt_msg).          (* str(e) of the caught JWTError *)

Inductive response :=
| CallNext (state : option (dict * jval))
    (* the request is forwarded; [state] is what was attached to
       [request.state]: token_payload and client_id *)
| JSONResponse (status_code : Z) (error : string) (error_description : description).

Definition dispatch `{Jose} (self : AsgardeoJWTMiddleware) (request : Request)
    (w : world) : response * AsgardeoJWTMiddleware * world :=
  if negb (enabled self) then (CallNext None, self, w)
  else if _is_public_path self (path request) then (CallNext None, self, w)
  else
    match authorization request with
    | None => (JSONResponse 401 "unauthorized" (Text "Missing authentication token"), self, w)
    | Some auth_header =>
        if negb (truthy auth_header) then
          (JSONResponse 401 "unauthorized" (Text "Missing authentication token"), self, w)
        else
          match split auth_header with
          | [scheme; token] =>
              if negb (String.eqb (lower scheme) "bearer") then
                (JSONResponse 401 "invalid_request"
                   (Text "Invalid Authorization header format. Expected: Bearer <token>"),
                 self, w)
              else
                match _validate_token self token w with
                | (Ok payload, self', w') =>
                    (CallNext (Some (payload, get payload "client_id")), self', w')
                | (Raise (JWTError m), self', w') =>
                    (JSONResponse 401 "invalid_token" (ErrorText m), self', w')
                | (Raise _, self', w') =>
                    (JSONResponse 500 "server_error"
                       (Text "Token validation failed due to server error"), self', w')
                end
          | _ =>
              (JSONResponse 401 "invalid_request"
                 (Text "Invalid Authorization header format. Expected: Bearer <token>"),
               self, w)
          end
    end.

(** [not v] for the result of [os.getenv(name)]: unset or empty. *)
Definition unset (v : option string) : bool :=
  match v with
  | Some s => negb (truthy s)
  | None => true
  end.

(** [create_jwt_middleware_from_env]; the second component is what was
    printed. *)
Definition create_jwt_middleware_from_env (environ : gmap string string)
    (required_scope : string) (agent_id : option string)
  : AsgardeoJWTMiddleware * list string :=
  let jwks_url := environ !! "ASGARDEO_JWKS_URL" in
  let issuer := environ !! "ASGARDEO_ISSUER" in
  let enabled :=
    String.eqb (lower (default "true" (environ !! "ASGARDEO_AUTH_ENABLED"))) "true" in
  let agent_id := or_str agent_id (default "" (environ !! "APPOINTMENTS_APP_ID")) in
  let '(enabled, printed) :=
    if (unset jwks_url || unset issuer)%bool then
      (false,
       ["[Auth] Warning: Asgardeo configuration missing. Authentication disabled.";
        "[Auth] Set ASGARDEO_JWKS_URL and ASGARDEO_ISSUER to enable authentication."])
    else (enabled, []) in
  (__init__ environ (or_str jwks_url "") (or_str issuer "") required_scope
     (Some agent_id) None enabled,
   printed).

(** *** Vocabulary for the statements about the verifier *)

(** The library call raised nothing but a [JWTError]. *)
Definition jwt_only {A} (r : result A) : Prop :=
  match r with
  | Ok _ | Raise (JWTError _) => True
  | Raise _ => False
  end.

(** A JWKS entry with the five members the verifier copies. *)
Definition well_formed_key (key : dict) : Prop :=
  is_Some (key !! "kid") /\ is_Some (key !! "kty") /\ is_Some (key !! "use")
  /\ is_Some (key !! "n") /\ is_Some (key !! "e").

(** The token is readable, its [kid] selects an entry of [keys], and
    [jwt.decode] (signature, issuer and expiry) returns [payload]. *)
Definition verified `{Jose} (self : AsgardeoJWTMiddleware) (w : world)
    (keys : list dict) (token : string) (payload : dict) : Prop :=
  exists hdr rsa_key unverified,
    get_unverified_header token = Ok hdr /\
    find_key keys (get hdr "kid") = Ok (Some rsa_key) /\
    get_unverified_claims token = Ok unverified /\
    decode token rsa_key (issuer self) (now w) = Ok payload.

(** The audience test of step 5. *)
Definition audience_ok (self : AsgardeoJWTMiddleware) (payload : dict) : Prop :=
  valid_audiences self = [] \/
  in_strs (get payload "aud") (valid_audiences self) = true.

(** An exception that is not a [JWTError]. *)
Definition not_jwt (e : exn) : Prop :=
  match e with
  | JWTError _ => False
  | _ => True
  end.

(** A step of the validation raises an exception that is not a [JWTError]:
    reading the token's header, the key loop (on an entry that lacks a
    member it reads), reading the token's claims, or [jwt.decode] with the
    selected key, in the order in which [_validate_token] takes them. *)
Definition server_fault `{Jose} (self : AsgardeoJWTMiddleware) (w : world)
    (keys : list dict) (token : string) : Prop :=
  (exists e, get_unverified_header token = Raise e /\ not_jwt e)
  \/ exists hdr,
       get_unverified_header token = Ok hdr /\
       ((exists e, find_key keys (get hdr "kid") = Raise e /\ not_jwt e)
        \/ exists rsa_key,
             find_key keys (get hdr "kid") = Ok (Some rsa_key) /\
             ((exists e, get_unverified_claims token = Raise e /\ not_jwt e)
              \/ exists unverified e,
                   get_unverified_claims token = Ok unverified /\
                   decode token rsa_key (issuer self) (now w) = Raise e /\ not_jwt e)).

End Middleware.

(** ** The network as the orchestrator sees it *)

Module Net.

Inductive auth :=
| NoAuth
| Basic (client_id client_secret : string)  (* 'Basic ' + b64(client_id:client_secret) *)
| Bearer (token : string).                  (* 'Bearer ' + token *)

(** What is sent: the fields of a form-encoded POST, or the text of an A2A
    message (the JSON-RPC envelope that [A2AClient.send_message] builds is
    reduced to its text part). *)
Inductive body :=
| Form (fields : list (string * jval))
| Message (text : string).

Record request := Request {
  url : string;
  data : body;
  authz : auth }.                 (* the Authorization header *)

(** The form field [k] of a request, if it has one. *)
Definition field (req : request) (k : string) : option jval :=
  match data req with
  | Form fields => snd <$> List.find (fun p => String.eqb (fst p) k) fields
  | Message _ => None
  end.

Record response := Response {
  status_code : Z;
  text : string;
  json : option dict }.           (* [None]: the body is not a JSON object *)

(** The clock, the answers the remote side will give to the next requests
    (each with the time it takes to arrive), and what has been sent so far
    with the answer received. *)
Record world := World {
  now : Z;
  script : list (Z * response);
  log : list (request * option response) }.

(** [await client.post(...)] (and any other request): the next scripted
    answer, or a transport failure when there is none. *)
Definition post (req : request) (w : world) : result response * world :=
  match script w with
  | (d, r) :: rest => (Ok r, World (now w + Z.max 0 d) rest (log w ++ [(req, Some r)]))
  | [] => (Raise TransportError, World (now w) [] (log w ++ [(req, None)]))
  end.

(** [await asyncio.sleep(d)]. *)
Definition sleep (d : Z) (w : world) : world :=
  World (now w + Z.max 0 d) (script w) (log w).

(** [response.json()]. *)
Definition json_of (r : response) : result dict :=
  match json r with
  | Some d => Ok d
  | None => Raise ValueError
  end.

(** [token_response['access_token']] used as a string (it is sliced with
    [[:30]] for printing, which raises [TypeError] on a number or [None]).
    List-valued tokens are not modelled and are rejected alike. *)
Definition access_token (d : dict) : result string :=
  v ← item d "access_token";
  match v with
  | JStr s => Ok s
  | _ => Raise TypeError
  end.

(** [d.get('expires_in', 3600)] used as a number. *)
Definition expires_in (d : dict) : result Z :=
  match d !! "expires_in" with
  | None => Ok 3600
  | Some (JNum n) => Ok n
  | Some _ => Raise TypeError
  end.

(** [response.raise_for_status()]. *)
Definition raise_for_status (r : response) : result unit :=
  if ((200 <=? status_code r) && (status_code r <? 300))%bool then Ok tt
  else Raise (HTTPStatusError (status_code r)).

(** What the log records as the answer to a request. *)
Definition answer_of (r : result response) : option response :=
  match r with
  | Ok x => Some x
  | Raise _ => None
  end.

End Net.
Export Net.

(** ** The token exchanger (token_exchange.py) *)

Module TokenExchange.

Record cache_entry := Entry { token : string; expiry : Z }.

Record TokenExchanger := Exchanger {
  token_exchange_url : string;
  client_id : string;
  client_secret : string;
  api_resource_identifier : option string;
  _token_cache : gmap string cache_entry }.

Definition set_cache (self : TokenExchanger) (c : gmap string cache_entry)
  : TokenExchanger :=
  Exchanger (token_exchange_url self) (client_id self) (client_secret self)
            (api_resource_identifier self) c.

Definition _get_cached_token (self : TokenExchanger) (agent_name : string) (time : Z)
  : option string * TokenExchanger :=
  match _token_cache self !! agent_name with
  | None => (None, self)
  | Some cache_entry =>
      if time <? expiry cache_entry then (Some (token cache_entry), self)
      else (None, set_cache self (delete agent_name (_token_cache self)))
  end.

Definition clear_cache (self : TokenExchanger) (agent_name : option string)
  : TokenExchanger :=
  match agent_name with
  | Some n => if truthy n then set_cache self (delete n (_token_cache self))
              else set_cache self ∅
  | None => set_cache self ∅
  end.

Definition placeholders : list string :=
  ["<YOUR_VACCINATION_AGENT_SECRET>"; "<YOUR_APPOINTMENTS_AGENT_SECRET>"].

Definition _get_agent_secret (environ : gmap string string) (agent_name : string)
  : option string :=
  let secret :=
    if contains "Vaccination" agent_name then
      default "" (environ !! "VACCINATION_APP_SECRET")
    else if (contains "Appointment" agent_name || contains "Scheduler" agent_name
             || contains "Clinic" agent_name)%bool then
      default "" (environ !! "APPOINTMENTS_APP_SECRET")
    else "" in
  if (truthy secret && negb (bool_decide (secret ∈ placeholders)))%bool
  then Some secret else None.

Definition actor_token_request (self : TokenExchanger)
    (agent_client_id agent_client_secret : string) : request :=
  Request (token_exchange_url self)
          (Form [("grant_type", JStr "client_credentials"); ("scope", JStr "openid")])
          (Basic agent_client_id agent_client_secret).

Definition _get_actor_token (self : TokenExchanger)
    (agent_client_id agent_client_secret : string) (w : world)
  : result string * world :=
  let '(r, w1) := post (actor_token_request self agent_client_id agent_client_secret) w in
  (response ← r;
   if negb (status_code response =? 200) then
     Raise (Exception ("Failed to get actor token: " +:+ text response))
   else
     token_response ← json_of response;
     access_token token_response,
   w1).

Definition formatted_scope (self : TokenExchanger) (required_scope : string) : string :=
  match api_resource_identifier self with
  | Some api => if truthy api then "openid " +:+ api +:+ "/" +:+ required_scope
                else required_scope
  | None => required_scope
  end.

(** [exchange_data], in insertion order. *)
Definition exchange_data (self : TokenExchanger) (master_token required_scope : string)
  : list (string * jval) :=
  [("grant_type", JStr "urn:ietf:params:oauth:grant-type:token-exchange");
   ("subject_token", JStr master_token);
   ("subject_token_type", JStr "urn:ietf:params:oauth:token-type:jwt");
   ("requested_token_type", JStr "urn:ietf:params:oauth:token-type:access_token");
   ("scope", JStr (formatted_scope self required_scope))]
  ++ match api_resource_identifier self with
     | Some api => if truthy api then [("audience", JStr api); ("resource", JStr api)]
                   else []
     | None => []
     end.

Definition exchange_request (self : TokenExchanger)
    (master_token agent_client_id agent_secret required_scope : string) : request :=
  Request (token_exchange_url self)
          (Form (exchange_data self master_token required_scope))
          (Basic agent_client_id agent_secret).

(** The caching statement at the end of [exchange_token_for_agent]. *)
Definition store (self : TokenExchanger) (agent_name delegated_token : string)
    (time expires_in : Z) : TokenExchanger :=
  set_cache self
    (<[agent_name := Entry delegated_token (time + expires_in - 60)]> (_token_cache self)).

(** [exchange_token_for_agent] after the cache check: everything inside
    [async with httpx.AsyncClient()]. *)
Definition perform_exchange (environ : gmap string string) (self : TokenExchanger)
    (master_token agent_name agent_client_id required_scope : string) (w : world)
  : result string * TokenExchanger * world :=
  match _get_agent_secret environ agent_name with
  | None =>
      (Raise (Exception ("No client secret configured for " +:+ agent_name +:+
                         ". Please set the appropriate APP_SECRET in .env")),
       self, w)
  | Some agent_secret =>
      match _get_actor_token self agent_client_id agent_secret w with
      | (Raise e, w1) => (Raise e, self, w1)
      | (Ok actor_token, w1) =>
          match post (exchange_request self master_token agent_client_id agent_secret
                        required_scope) w1 with
          | (Raise e, w2) => (Raise e, self, w2)
          | (Ok response, w2) =>
              if negb (status_code response =? 200) then
                (Raise (Exception ("Token exchange failed for " +:+ agent_name +:+ ": "
                                   +:+ text response)), self, w2)
              else
                match (token_response ← json_of response;
                       delegated_token ← access_token token_response;
                       lifetime ← expires_in token_response;
                       Ok (delegated_token, lifetime)) with
                | Raise e => (Raise e, self, w2)
                | Ok (delegated_token, lifetime) =>
                    (Ok delegated_token,
                     store self agent_name delegated_token (now w2) lifetime, w2)
                end
          end
      end
  end.

Definition exchange_token_for_agent (environ : gmap string string)
    (self : TokenExchanger)
    (master_token agent_name agent_client_id required_scope : string) (w : world)
  : result string * TokenExchanger * world :=
  let '(cached, self1) := _get_cached_token self agent_name (now w) in
  match cached with
  | Some c =>
      if truthy c then (Ok c, self1, w)
      else perform_exchange environ self1 master_token agent_name agent_client_id
             required_scope w
  | None =>
      perform_exchange environ self1 master_token agent_name agent_client_id
        required_scope w
  end.

Record AgentConfig := Config {
  name : string;
  app_id : string;
  app_secret : string;
  required_scope : string }.

(** *** Vocabulary for the statements about delegation *)

Definition token_exchange_grant : jval :=
  JStr "urn:ietf:params:oauth:grant-type:token-exchange".

(** The token handed out by a logged round trip, when it is a successful
    RFC 8693 exchange. *)
Definition exchanged (entry : request * option response) : option string :=
  match entry with
  | (req, Some resp) =>
      if (bool_decide (field req "grant_type" = Some token_exchange_grant)
          && (status_code resp =? 200))%bool then
        match json_of resp ≫= access_token with
        | Ok t => Some t
        | Raise _ => None
        end
      else None
  | (_, None) => None
  end.

(** All delegated tokens handed out in a log, oldest first. *)
Definition issued_tokens (l : list (request * option response)) : list string :=
  omap exchanged l.



End TokenExchange.

(** ** The orchestrator's [talk_to_agent] tool (both agent.py files) *)

Module Orchestrator.
Import TokenExchange.

(** The module globals that [talk_to_agent] reads and writes.
    [KNOWN_AGENTS] keeps, for each discovered agent, the URL of its card. *)
Record globals := Globals {
  KNOWN_AGENTS : gmap string string;
  TOKEN_EXCHANGER : option TokenExchanger;
  MASTER_TOKEN : option string;
  AGENT_CONFIGS : gmap string AgentConfig;
  DELEGATED_TOKENS : gmap string string }.

(** What the tool returns; each constructor stands for one of the
    formatted strings. *)
Inductive outcome :=
| NotAvailable            (* "Error: Agent '...' is not available. ..." *)
| ConfigurationMissing    (* "Error: Cannot get token for ... Configuration missing." *)
| ExchangeFailed (e : exn)        (* "Error: Token exchange failed for ...: e" *)
| Responded (r : response)        (* one of the three renderings of the reply *)
| CommunicationFailed (e : exn).  (* "Error communicating with ...: e" *)

(** The A2A message sent to an agent; [authz] is the Authorization header
    of the client used. *)
Definition message (agent_url content : string) (authz : auth) : request :=
  Request agent_url (Message content) authz.

(** Step 2: [Some] token, or the value returned early. *)
Definition get_delegated_token (environ : gmap string string) (g : globals)
    (agent_name : string) (w : world) : (outcome + string) * globals * world :=
  match DELEGATED_TOKENS g !! agent_name with
  | Some agent_token => (inr agent_token, g, w)
  | None =>
      match TOKEN_EXCHANGER g, MASTER_TOKEN g, AGENT_CONFIGS g !! agent_name with
      | Some exchanger, Some master_token, Some agent_config =>
          if truthy master_token then
            match exchange_token_for_agent environ exchanger master_token agent_name
                    (app_id agent_config) (required_scope agent_config) w with
            | (Ok agent_token, exchanger', w') =>
                (inr agent_token,
                 Globals (KNOWN_AGENTS g) (Some exchanger') (MASTER_TOKEN g)
                         (AGENT_CONFIGS g)
                         (<[agent_name := agent_token]> (DELEGATED_TOKENS g)),
                 w')
            | (Raise e, exchanger', w') =>
                (inl (ExchangeFailed e),
                 Globals (KNOWN_AGENTS g) (Some exchanger') (MASTER_TOKEN g)
                         (AGENT_CONFIGS g) (DELEGATED_TOKENS g),
                 w')
            end
          else (inl ConfigurationMissing, g, w)
      | _, _, _ => (inl ConfigurationMissing, g, w)
      end
  end.

Definition talk_to_agent (environ : gmap string string) (g : globals)
    (agent_name content : string) (w : world) : outcome * globals * world :=
  match KNOWN_AGENTS g !! agent_name with
  | None => (NotAvailable, g, w)
  | Some agent_url =>
      match get_delegated_token environ g agent_name w with
      | (inl early, g', w') => (early, g', w')
      | (inr agent_token, g', w') =>
          let authz := if truthy agent_token then Bearer agent_token else NoAuth in
          match post (message agent_url content authz) w' with
          | (Ok response, w'') => (Responded response, g', w'')
          | (Raise e, w'') => (CommunicationFailed e, g', w'')
          end
      end
  end.

(** *** Vocabulary for the statements about outbound calls *)

(** Reading the log oldest first: every A2A message carries
    [Authorization: Bearer t] for a token [t] that a token exchange had
    handed out before the message was sent. [issued] lists the tokens handed
    out before the part of the log being read. *)
Fixpoint delegated_only (issued : list string)
    (l : list (request * option response)) : bool :=
  match l with
  | [] => true
  | entry :: rest =>
      match data entry.1 with
      | Message _ =>
          match authz entry.1 with
          | Bearer t => bool_decide (t ∈ issued) && delegated_only issued rest
          | _ => false
          end
      | Form _ => delegated_only (issued ++ option_list (exchanged entry)) rest
      end
  end.

(** The states the orchestrator can be in after discovery: any number of
    [talk_to_agent] calls, between which time passes and the remote side's
    future answers change. *)
Inductive reachable (g0 : globals) (w0 : world) : globals -> world -> Prop :=
| reach_start : reachable g0 w0 g0 w0
| reach_call environ g w agent_name content o g' w' :
    reachable g0 w0 g w ->
    talk_to_agent environ g agent_name content w = (o, g', w') ->
    reachable g0 w0 g' w'
| reach_wait g w time answers :
    reachable g0 w0 g w ->
    reachable g0 w0 g (World time answers (log w)).

(** The state in which [main] leaves the globals before the first call:
    nothing delegated yet, and nothing sent to an agent except what
    [delegated_only] admits. *)
Definition start_state (g0 : globals) (w0 : world) : Prop :=
  DELEGATED_TOKENS g0 = ∅
  /\ (forall exchanger, TOKEN_EXCHANGER g0 = Some exchanger -> _token_cache exchanger = ∅)
  /\ delegated_only [] (log w0) = true.

(** A logged request to the identity provider (a form, not a message). *)
Definition is_form (entry : request * option response) : Prop :=
  exists fields, data entry.1 = Form fields.

(** Every cached entry of the exchanger was handed out in the log. *)
Definition cache_issued (exchanger : TokenExchanger)
    (l : list (request * option response)) : Prop :=
  forall agent_name e, _token_cache exchanger !! agent_name = Some e ->
                       token e ∈ issued_tokens l.

(** What holds of the globals and the log between two calls. *)
Definition tokens_issued (g : globals) (l : list (request * option response)) : Prop :=
  (forall agent_name tok, DELEGATED_TOKENS g !! agent_name = Some tok ->
                          tok ∈ issued_tokens l)
  /\ (forall exchanger, TOKEN_EXCHANGER g = Some exchanger -> cache_issued exchanger l).

(** The invariant of the orchestrator's run. *)
Definition run_invariant (g : globals) (w : world) : Prop :=
  tokens_issued g (log w)
  /\ ("" ∉ issued_tokens (log w) -> delegated_only [] (log w) = true).

(** Reading the log oldest first: every A2A message either carries
    [Authorization: Bearer t] for a token [t] that a token exchange had
    handed out before the message was sent, or carries no Authorization
    header at all, and that only after a token exchange had handed out the
    empty token. *)
Fixpoint delegated_or_bare (issued : list string)
    (l : list (request * option response)) : bool :=
  match l with
  | [] => true
  | entry :: rest =>
      match data entry.1 with
      | Message _ =>
          match authz entry.1 with
          | Bearer t => bool_decide (t ∈ issued) && delegated_or_bare issued rest
          | NoAuth => bool_decide ("" ∈ issued) && delegated_or_bare issued rest
          | Basic _ _ => false
          end
      | Form _ => delegated_or_bare (issued ++ option_list (exchanged entry)) rest
      end
  end.

(** No answer in the log carries a JSON array as its ['access_token']: the
    tokens that the identity provider hands out are strings (or the answer
    is one on which the code raises). *)
Definition string_tokens (l : list (request * option response)) : Prop :=
  Forall (fun entry : request * option response =>
            forall r d tokens,
              entry.2 = Some r -> json r = Some d ->
              d !! "access_token" <> Some (JList tokens)) l.

(** The invariant of the orchestrator's run, with the unauthenticated
    fallback. *)
Definition outbound_invariant (g : globals) (w : world) : Prop :=
  tokens_issued g (log w) /\ delegated_or_bare [] (log w) = true.

End Orchestrator.

(** ** Device-flow authentication (user_auth.py) *)

Module UserAuth.

Record UserAuthenticator := Authenticator {
  device_authorize_url : string;
  token_url : string;
  client_id : string;
  client_secret : string;
  scope : string;
  _master_token : jval;            (* [JNull] is [None] *)
  _refresh_token : jval;
  _token_expiry : option Z }.

Definition device_request (self : UserAuthenticator) : request :=
  Request (device_authorize_url self)
          (Form [("client_id", JStr (client_id self)); ("scope", JStr (scope self))])
          NoAuth.

(** The retry with Basic authentication refers to [base64], which the
    module never imports: reaching it raises [NameError]. *)
Definition initiate_device_flow (self : UserAuthenticator) (w : world)
  : result dict * world :=
  let '(r, w1) := post (device_request self) w in
  (response ← r;
   if ((status_code response =? 401) || (status_code response =? 400))%bool then
     Raise (NameError "base64")
   else
     _ ← raise_for_status response;
     json_of response,
   w1).

Definition poll_request (self : UserAuthenticator) (device_code : jval) : request :=
  Request (token_url self)
          (Form [("grant_type", JStr "urn:ietf:params:oauth:grant-type:device_code");
                 ("device_code", device_code);
                 ("client_id", JStr (client_id self));
                 ("client_secret", JStr (client_secret self))])
          NoAuth.

(** The [while True] loop of [poll_for_token]. Every iteration that does
    not leave the loop consumes one answer of the token endpoint, so the
    loop is defined by recursion on the answers still to come; the
    [client.post] of the iteration is [post] written out on the two shapes
    of [answers] (lemma [poll_round_is_post]). *)
Fixpoint poll_loop (self : UserAuthenticator) (device_code : jval)
    (timeout start_time : Z) (answers : list (Z * response)) (interval : jval)
    (time : Z) (sent : list (request * option response)) : result dict * world :=
  if timeout <? time - start_time then
    (Raise TimeoutError, World time answers sent)
  else
    match answers with
    | [] =>
        (Raise TransportError,
         World time [] (sent ++ [(poll_request self device_code, None)]))
    | (d, response) :: rest =>
        let w1 := World (time + Z.max 0 d) rest
                        (sent ++ [(poll_request self device_code, Some response)]) in
        if status_code response =? 200 then (json_of response, w1)
        else
          match json_of response with
          | Raise e => (Raise e, w1)
          | Ok error_data =>
              let error_code := get error_data "error" in
              let continue (interval : jval) :=
                match interval with
                | JNum seconds =>
                    poll_loop self device_code timeout start_time rest interval
                      (now (sleep seconds w1)) (log w1)
                | _ => (Raise TypeError, w1)     (* [asyncio.sleep] of a non-number *)
                end in
              if bool_decide (error_code = JStr "authorization_pending") then
                continue interval
              else if bool_decide (error_code = JStr "slow_down") then
                match interval with
                | JNum seconds => continue (JNum (seconds + 5))
                | _ => (Raise TypeError, w1)     (* [interval += 5] *)
                end
              else if bool_decide (error_code = JStr "expired_token")
                   || bool_decide (error_code = JStr "access_denied") then
                (Raise (Exception "Authentication failed"), w1)
              else (Raise (Exception "Token polling error"), w1)
          end
    end.

Definition poll_for_token (self : UserAuthenticator) (device_code interval : jval)
    (timeout : Z) (w : world) : result dict * world :=
  poll_loop self device_code timeout (now w) (script w) interval (now w) (log w).

Definition set_tokens (self : UserAuthenticator) (master refresh : jval)
    (expiry : option Z) : UserAuthenticator :=
  Authenticator (device_authorize_url self) (token_url self) (client_id self)
                (client_secret self) (scope self) master refresh expiry.

(** [self._master_token and self._token_expiry], then the five-minute
    buffer: the test that opens [authenticate_user] and is the whole of
    the method [get_cached_token]. *)
Definition get_cached_token (self : UserAuthenticator) (time : Z) : option jval :=
  match _token_expiry self with
  | Some e =>
      if (truthy_val (_master_token self) && negb (e =? 0) && (time <? e - 300))%bool
      then Some (_master_token self) else None
  | None => None
  end.

(** [authenticate_user]; [prompt_user_to_authenticate] only prints and
    opens the browser, and is left out. *)
Definition authenticate_user (self : UserAuthenticator) (w : world)
  : result jval * UserAuthenticator * world :=
  match get_cached_token self (now w) with
  | Some t => (Ok t, self, w)
  | None =>
      match initiate_device_flow self w with
      | (Raise e, w1) => (Raise e, self, w1)
      | (Ok device_data, w1) =>
          match item device_data "device_code" with
          | Raise e => (Raise e, self, w1)
          | Ok device_code =>
              match poll_for_token self device_code
                      (default (JNum 5) (device_data !! "interval")) 300 w1 with
              | (Raise e, w2) => (Raise e, self, w2)
              | (Ok token_data, w2) =>
                  match item token_data "access_token" with
                  | Raise e => (Raise e, self, w2)
                  | Ok master =>
                      let self1 :=
                        set_tokens self master (get token_data "refresh_token")
                                   (_token_expiry self) in
                      match expires_in token_data with
                      | Raise e => (Raise e, self1, w2)
                      | Ok lifetime =>
                          (Ok master,
                           set_tokens self1 master (_refresh_token self1)
                                      (Some (now w2 + lifetime)),
                           w2)
                      end
                  end
              end
          end
      end
  end.

(** *** Vocabulary for the statements about polling *)

(** The token endpoint says that the user has not finished yet. *)
Definition pending (r : response) : Prop :=
  status_code r <> 200
  /\ exists d, json r = Some d /\ get d "error" = JStr "authorization_pending".

End UserAuth.

(** ** Browser authentication, authorization code with PKCE (browser_auth.py) *)

Module BrowserAuth.

Record BrowserAuthenticator := Authenticator {
  authorize_url : string;
  token_url : string;
  client_id : string;
  client_secret : string;
  redirect_uri : string;
  scope : string;
  api_resource_identifier : option string;
  _access_token : jval;
  _refresh_token : jval }.

(** The class attributes of [CallbackHandler] once [server.handle_request()]
    has returned (all unset when it timed out). *)
Record callback := Callback {
  authorization_code : option string;
  error : option string;
  error_description : option string }.

Definition opt_truthy (o : option string) : bool :=
  match o with
  | Some s => truthy s
  | None => false
  end.

Definition opt_jval (o : option string) : jval :=
  match o with
  | Some s => JStr s
  | None => JNull
  end.

(** [token_data] of the code exchange. The ['resource'] member is set
    unconditionally, and set again when the identifier is truthy. *)
Definition code_exchange_request (self : BrowserAuthenticator)
    (code code_verifier : string) : request :=
  Request (token_url self)
          (Form [("grant_type", JStr "authorization_code");
                 ("code", JStr code);
                 ("redirect_uri", JStr (redirect_uri self));
                 ("code_verifier", JStr code_verifier);
                 ("resource", opt_jval (api_resource_identifier self))])
          (Basic (client_id self) (client_secret self)).

Definition set_tokens (self : BrowserAuthenticator) (access refresh : jval)
  : BrowserAuthenticator :=
  Authenticator (authorize_url self) (token_url self) (client_id self)
                (client_secret self) (redirect_uri self) (scope self)
                (api_resource_identifier self) access refresh.

(** [authenticate_user]. The PKCE verifier drawn from [secrets] and the
    outcome of the browser round trip are inputs; opening the browser and
    the local listener leave no trace in the state. The method reads neither
    [_access_token] nor any expiry before starting a new login. *)
Definition authenticate_user (self : BrowserAuthenticator) (code_verifier : string)
    (cb : callback) (w : world) : result jval * BrowserAuthenticator * world :=
  if opt_truthy (error cb) then (Raise (Exception "Asgardeo error"), self, w)
  else
    match authorization_code cb with
    | None => (Raise (Exception "Failed to receive authorization code"), self, w)
    | Some code =>
        if negb (truthy code) then
          (Raise (Exception "Failed to receive authorization code"), self, w)
        else
          match post (code_exchange_request self code code_verifier) w with
          | (Raise e, w1) => (Raise e, self, w1)
          | (Ok response, w1) =>
              if negb (status_code response =? 200) then
                (Raise (Exception ("Failed to exchange code for token: "
                                   +:+ text response)), self, w1)
              else
                match json_of response with
                | Raise e => (Raise e, self, w1)
                | Ok token_response =>
                    match item token_response "access_token" with
                    | Raise e => (Raise e, self, w1)
                    | Ok access =>
                        let self1 :=
                          set_tokens self access (get token_response "refresh_token") in
                        match access with
                        | JStr _ | JList _ => (Ok access, self1, w1)
                        | _ => (Raise TypeError, self1, w1)   (* [access[:30]] *)
                        end
                    end
                end
          end
    end.

(** The request of [_exchange_code_with_actor_token], the code exchange of
    the delegation flow. *)
Definition code_exchange_with_actor_request (self : BrowserAuthenticator)
    (auth_code code_verifier actor_token : string) : request :=
  Request (token_url self)
          (Form ([("grant_type", JStr "authorization_code");
                  ("code", JStr auth_code);
                  ("redirect_uri", JStr (redirect_uri self));
                  ("code_verifier", JStr code_verifier);
                  ("actor_token", JStr actor_token);
                  ("actor_token_type",
                   JStr "urn:ietf:params:oauth:token-type:access_token")]
                 ++ match api_resource_identifier self with
                    | Some api => if truthy api then [("resource", JStr api)] else []
                    | None => []
                    end))
          (Basic (client_id self) (client_secret self)).

Definition _exchange_code_with_actor_token (self : BrowserAuthenticator)
    (auth_code code_verifier actor_token scope : string) (w : world)
  : result string * world :=
  let '(r, w1) :=
    post (code_exchange_with_actor_request self auth_code code_verifier actor_token) w in
  (response ← r;
   if negb (status_code response =? 200) then
     Raise (Exception ("Failed to exchange code: " +:+ text response))
   else
     token_response ← json_of response;
     access_token token_response,
   w1).

End BrowserAuth.

(** ** More of Python's [str] *)

Module PyStr.

Definition upper_char (a : ascii) : ascii :=
  let n := nat_of_ascii a in
  if ((97 <=? n)%nat && (n <=? 122)%nat)%bool then ascii_of_nat (n - 32) else a.

(** [s.upper()] for strings of ASCII characters; any other character is
    left as it is. *)
Fixpoint upper (s : string) : string :=
  match s with
  | EmptyString => EmptyString
  | String a s' => String (upper_char a) (upper s')
  end.

(** [sep.join(l)]. *)
Definition join (sep : string) (l : list string) : string := String.concat sep l.

(** [s.replace(old, new)] for a non-empty [old]: the occurrences of [old]
    are replaced from left to right, without overlap. [skip] counts the
    characters of the occurrence just replaced that are still to be
    dropped. *)
Fixpoint replace_from (old new : string) (skip : nat) (s : string) : string :=
  match s with
  | EmptyString => EmptyString
  | String a s' =>
      match skip with
      | S k => replace_from old new k s'
      | O =>
          if String.prefix old s then
            new +:+ replace_from old new (String.length old - 1) s'
          else String a (replace_from old new 0 s')
      end
  end.

(** With an empty [old], [new] is inserted before every character and at
    the end. *)
Fixpoint interleave (new s : string) : string :=
  match s with
  | EmptyString => new
  | String a s' => new +:+ String a (interleave new s')
  end.

Definition replace (s old new : string) : string :=
  if String.eqb old "" then interleave new s else replace_from old new 0 s.

End PyStr.

(** ** Agent configurations (token_exchange.py) *)

Module AgentSetup.
Import TokenExchange.

(** [AgentConfig.has_credentials], as the truth value of what it returns. *)
Definition has_credentials (self : AgentConfig) : bool :=
  (truthy (app_id self) && truthy (app_secret self)
   && negb (bool_decide (app_secret self ∈ placeholders)))%bool.

Definition get_vaccination_agent_config (environ : gmap string string) : AgentConfig :=
  Config "Pet Vaccination Assistant"
    (default "<your_vaccination_client_id>" (environ !! "VACCINATION_APP_ID"))
    (default "<YOUR_VACCINATION_AGENT_SECRET>" (environ !! "VACCINATION_APP_SECRET"))
    (default "vaccination:read" (environ !! "VACCINATION_REQUIRED_SCOPE")).

Definition get_appointments_agent_config (environ : gmap string string) : AgentConfig :=
  Config "Pet Clinic Scheduler"
    (default "<your_appointments_client_id>" (environ !! "APPOINTMENTS_APP_ID"))
    (default "<YOUR_APPOINTMENTS_AGENT_SECRET>" (environ !! "APPOINTMENTS_APP_SECRET"))
    (default "appointments:read" (environ !! "APPOINTMENTS_REQUIRED_SCOPE")).

End AgentSetup.

(** ** Discovery of agent configurations
       (src/agents/orchestrator_agent/agent.py) *)

Module Discovery.
Import PyStr.

Definition ignore_words : list string :=
  ["the"; "a"; "an"; "and"; "or"; "but"; "for"; "of"; "to"; "in"; "on"; "at";
   "assistant"; "agent"; "service"; "helper"; "bot"; "system"; "manager";
   "handler"; "processor"; "worker"; "server"; "client"; "api";
   "pet"; "pets"].

(** The words of [agent_name] that are not filler words of [ignore]. *)
Definition significant (ignore : list string) (words : list string) : list string :=
  List.filter (fun word => negb (bool_decide (lower word ∈ ignore))) words.

(** Every character of [s] is an ASCII character. *)
Fixpoint ascii_only (s : string) : bool :=
  match s with
  | EmptyString => true
  | String a s' => ((nat_of_ascii a <? 128)%nat && ascii_only s')%bool
  end.

(** [s] holds nothing but white space. *)
Fixpoint blank (s : string) : bool :=
  match s with
  | EmptyString => true
  | String a s' => (is_space a && blank s')%bool
  end.

(** [derive_env_var_name]; [None] is the [IndexError] of [words[0]]. *)
Definition derive_env_var_name (agent_name suffix : string) : option string :=
  let words := split agent_name in
  let significant_words := significant ignore_words words in
  key_term ← match significant_words with
             | word :: _ => Some (upper word)
             | [] => upper <$> head words
             end;
  Some (key_term +:+ suffix).

(** The shorter set of filler words that [get_agent_config_from_env]
    declares for itself. *)
Definition ignore_words_config : list string :=
  ["the"; "a"; "an"; "and"; "or"; "but"; "for"; "of"; "to"; "in"; "on"; "at";
   "assistant"; "agent"; "service"; "helper"; "bot"; "system"; "manager";
   "pet"; "pets"].

(** The nested function [is_valid]: set, and not a [<placeholder>]. *)
Definition is_valid (value : string) : bool :=
  (truthy value && negb (contains "<" value) && negb (contains ">" value))%bool.

(** The three variables read for one naming pattern. *)
Definition pattern_vars (pattern : string) : list string :=
  [pattern +:+ "_APP_ID"; pattern +:+ "_APP_SECRET"; pattern +:+ "_REQUIRED_SCOPE"].

(** The list [patterns], in the order in which it is tried. *)
Definition patterns_of (agent_name : string) : option (list string) :=
  primary_pattern ← derive_env_var_name agent_name "";
  let words := split agent_name in
  let significant_words := upper <$> significant ignore_words_config words in
  let patterns :=
    ([primary_pattern]
     ++ (if (1 <? length significant_words)%nat then [join "_" significant_words] else [])
     ++ [join "_" (upper <$> words)])%list in
  Some (if existsb (fun word => contains word (lower agent_name))
                   ["clinic"; "scheduler"; "appointment"]
        then "APPOINTMENTS" :: patterns else patterns).

(** What [get_agent_config_from_env] returns: [(app_id, app_secret,
    required_scope, env_vars_tried)]. *)
Definition env_config : Type :=
  option string * option string * option string * list string.

(** The loop over [patterns]. When nothing is found the last component is
    [list(set(tried_vars))], whose order Python leaves unspecified. *)
Fixpoint try_patterns (environ : gmap string string) (patterns tried_vars : list string)
  : env_config :=
  match patterns with
  | [] => (None, None, None, elements (list_to_set tried_vars : gset string))
  | pattern :: rest =>
      let app_id := default "" (environ !! (pattern +:+ "_APP_ID")) in
      let app_secret := default "" (environ !! (pattern +:+ "_APP_SECRET")) in
      let required_scope := default "" (environ !! (pattern +:+ "_REQUIRED_SCOPE")) in
      if is_valid app_id then
        (Some app_id,
         if is_valid app_secret then Some app_secret else None,
         if is_valid required_scope then Some required_scope else None,
         pattern_vars pattern)
      else try_patterns environ rest (tried_vars ++ pattern_vars pattern)
  end.

(** [get_agent_config_from_env]; [None] is the [IndexError] that
    [derive_env_var_name] raises. *)
Definition get_agent_config_from_env (environ : gmap string string) (agent_name : string)
  : option env_config :=
  patterns ← patterns_of agent_name;
  Some (try_patterns environ patterns []).

End Discovery.

(** ** Refreshing the master token (user_auth.py) *)

Module MasterTokenRefresh.
Import UserAuth.

Definition refresh_request (self : UserAuthenticator) : request :=
  Request (token_url self)
          (Form [("grant_type", JStr "refresh_token");
                 ("refresh_token", _refresh_token self);
                 ("client_id", JStr (client_id self));
                 ("client_secret", JStr (client_secret self))])
          NoAuth.

(** [refresh_master_token]. The three attributes are assigned one after
    the other, so an [expires_in] that is not a number leaves the new
    tokens with the old expiry. *)
Definition refresh_master_token (self : UserAuthenticator) (w : world)
  : result jval * UserAuthenticator * world :=
  if negb (truthy_val (_refresh_token self)) then
    (Raise (Exception "No refresh token available - please re-authenticate"), self, w)
  else
    match post (refresh_request self) w with
    | (Raise e, w1) => (Raise e, self, w1)
    | (Ok response, w1) =>
        match (_ ← raise_for_status response; json_of response) with
        | Raise e => (Raise e, self, w1)
        | Ok token_data =>
            match item token_data "access_token" with
            | Raise e => (Raise e, self, w1)
            | Ok master =>
                let self1 :=
                  set_tokens self master
                    (default (_refresh_token self) (token_data !! "refresh_token"))
                    (_token_expiry self) in
                match expires_in token_data with
                | Raise e => (Raise e, self1, w1)
                | Ok lifetime =>
                    (Ok master,
                     set_tokens self1 master (_refresh_token self1)
                                (Some (now w1 + lifetime)),
                     w1)
                end
            end
        end
    end.

End MasterTokenRefresh.

(** ** The callback listener and the delegation flow (browser_auth.py) *)

(** PyJWT is a third-party library: [encode payload key] stands for
    [jwt.encode(payload, key, algorithm='HS256')]. *)
Class PyJWT := { encode : dict -> string -> string }.

Module Delegation.
Import PyStr BrowserAuth.

(** What [parse_qs(urlparse(self.path).query)] yields: each name that
    occurs with a non-blank value, with the first of its values and the
    others. *)
Abbreviation query := (gmap string (string * list string)).

(** [CallbackHandler.do_GET] on the class attributes [handler]: the new
    attributes and the status of the page sent back. The handler never looks
    at [state]. *)
Definition do_GET (q : query) (handler : callback) : callback * Z :=
  match q !! "error" with
  | Some (e, _) =>
      (Callback (authorization_code handler) (Some e)
                (Some (default "Unknown error" (fst <$> q !! "error_description"))),
       400)
  | None =>
      match q !! "code" with
      | Some (code, _) =>
          (Callback (Some code) (error handler) (error_description handler), 200)
      | None => (handler, 400)
      end
  end.

(** [server.handle_request()]: one GET request is handled, or the five
    minutes pass without one ([None]). *)
Definition handle_request (arrival : option query) (handler : callback) : callback :=
  match arrival with
  | Some q => (do_GET q handler).1
  | None => handler
  end.

(** The reset that [authenticate_user] does before it listens. *)
Definition reset_handler : callback := Callback None None None.

(** [_get_authorization_code_with_actor]: only [authorization_code] is
    reset before listening, and only it is looked at afterwards. *)
Definition _get_authorization_code_with_actor (code_verifier : string)
    (arrival : option query) (handler : callback) : result (string * string) * callback :=
  let handler1 := Callback None (error handler) (error_description handler) in
  let handler2 := handle_request arrival handler1 in
  (if opt_truthy (authorization_code handler2) then
     Ok (default "" (authorization_code handler2), code_verifier)
   else Raise (Exception "Failed to receive authorization code"),
   handler2).

(** [jwt_payload] of [_get_actor_token]; [jti] is drawn from [secrets]. *)
Definition jwt_payload (self : BrowserAuthenticator) (client_id : string) (time : Z)
    (jti : string) : dict :=
  {[ "iss" := JStr client_id; "sub" := JStr client_id;
     "aud" := JStr (replace (token_url self) "/token" "");
     "exp" := JNum (time + 300); "iat" := JNum time; "jti" := JStr jti ]}.

(** The request of [_get_actor_token]. [scopes] are the elements of
    [set(scope.split())] in the order in which the set yields them. *)
Definition actor_token_request `{PyJWT} (self : BrowserAuthenticator)
    (client_id client_secret : string) (scopes : list string) (jti : string) (time : Z)
  : request :=
  Request (token_url self)
          (Form [("grant_type", JStr "client_credentials");
                 ("scope", JStr (join " " scopes));
                 ("client_assertion_type",
                  JStr "urn:ietf:params:oauth:client-assertion-type:jwt-bearer");
                 ("client_assertion",
                  JStr (encode (jwt_payload self client_id time jti) client_secret))])
          NoAuth.

Definition _get_actor_token `{PyJWT} (self : BrowserAuthenticator)
    (client_id client_secret : string) (scopes : list string) (jti : string) (w : world)
  : result jval * world :=
  let '(r, w1) :=
    post (actor_token_request self client_id client_secret scopes jti (now w)) w in
  (response ← r;
   if negb (status_code response =? 200) then
     Raise (Exception ("Failed to get actor token: " +:+ text response))
   else
     token_response ← json_of response;
     item token_response "access_token",
   w1).

(** [authenticate_user_with_delegation]. The actor token is sliced for
    printing, which raises [TypeError] on a number or [None], and then sent
    as a form field. An array-valued token, with which the code would go
    on, is not modelled and is answered [TypeError] alike. *)
Definition authenticate_user_with_delegation `{PyJWT} (self : BrowserAuthenticator)
    (actor_client_id actor_client_secret requested_scope : string)
    (scopes : list string) (jti code_verifier : string)
    (arrival : option query) (handler : callback) (w : world)
  : result string * callback * world :=
  match _get_actor_token self actor_client_id actor_client_secret scopes jti w with
  | (Raise e, w1) => (Raise e, handler, w1)
  | (Ok (JStr actor_token), w1) =>
      match _get_authorization_code_with_actor code_verifier arrival handler with
      | (Raise e, handler') => (Raise e, handler', w1)
      | (Ok (auth_code, code_verifier), handler') =>
          let '(r, w2) :=
            _exchange_code_with_actor_token self auth_code code_verifier actor_token
              requested_scope w1 in
          (r, handler', w2)
      end
  | (Ok _, w1) => (Raise TypeError, handler, w1)
  end.

End Delegation.

(** ** A symbolic stand-in for python-jose, used in the examples

    A token is whatever [parse] reads it as: a header, the claims, and the
    modulus of the key pair that signed it.  Verification against a JWKS
    entry succeeds when the entry carries that modulus. *)

Module SymbolicJose.

Record jwt := Jwt { header : dict; claims : dict; signed_with : jval }.

Definition malformed {A} : result A := Raise (JWTError (LibraryMsg "Error decoding token.")).

Definition decode_with (parse : string -> option jwt) (token : string) (key : rsa_key)
    (issuer : string) (time : Z) : result dict :=
  match parse token with
  | None => malformed
  | Some t =>
      if negb (bool_decide (get (header t) "alg" = JStr "RS256")) then
        Raise (JWTError (LibraryMsg "The specified alg value is not allowed"))
      else if negb (bool_decide (signed_with t = rk_n key)) then
        Raise (JWTError (LibraryMsg "Signature verification failed."))
      else if match claims t !! "exp" with
              | Some (JNum e) => e <? time
              | _ => false
              end then
        Raise (JWTError (LibraryMsg "Signature has expired."))
      else if negb (bool_decide (get (claims t) "iss" = JStr issuer)) then
        Raise (JWTError (LibraryMsg "Invalid issuer"))
      else Ok (claims t)
  end.

Definition jose (parse : string -> option jwt) : Jose := {|
  get_unverified_header token :=
    match parse token with Some t => Ok (header t) | None => malformed end;
  get_unverified_claims token :=
    match parse token with Some t => Ok (claims t) | None => malformed end;
  decode := decode_with parse |}.

End SymbolicJose.

(** ** Sample data for the examples *)

Module Sample.
Import Middleware.

Definition key1 : dict :=
  {[ "kty" := JStr "RSA"; "kid" := JStr "k1"; "use" := JStr "sig";
     "n" := JStr "modulus-1"; "e" := JStr "AQAB" ]}.

Definition jwks1 : jwks_doc := {[ "keys" := [key1] ]}.

Definition the_issuer : string := "https://api.asgardeo.io/t/pets/oauth2/token".

Definition claims_for (aud : jval) (exp : Z) : dict :=
  {[ "iss" := JStr the_issuer; "aud" := aud; "exp" := JNum exp;
     "sub" := JStr "user-1"; "client_id" := JStr "VAX1" ]}.

(** Three tokens: one signed with the published key for audience
    ["someone-else"], one for ["APPT1"], and one whose [kid] is not
    published. *)
Definition parse (token : string) : option SymbolicJose.jwt :=
  if String.eqb token "tok-other-aud" then
    Some (SymbolicJose.Jwt {[ "alg" := JStr "RS256"; "kid" := JStr "k1" ]}
            (claims_for (JStr "someone-else") 5000) (JStr "modulus-1"))
  else if String.eqb token "tok-appt" then
    Some (SymbolicJose.Jwt {[ "alg" := JStr "RS256"; "kid" := JStr "k1" ]}
            (claims_for (JStr "APPT1") 5000) (JStr "modulus-1"))
  else if String.eqb token "tok-rotated" then
    Some (SymbolicJose.Jwt {[ "alg" := JStr "RS256"; "kid" := JStr "k2" ]}
            (claims_for (JStr "APPT1") 5000) (JStr "modulus-2"))
  else None.

Definition jose : Jose := SymbolicJose.jose parse.

(** A verifier created with neither an agent id nor an API resource. *)
Definition open_verifier : AsgardeoJWTMiddleware :=
  __init__ ∅ "https://idp/jwks" the_issuer "appointments:read" None None true.

(** A verifier for the appointments agent. *)
Definition appt_verifier : AsgardeoJWTMiddleware :=
  __init__ ∅ "https://idp/jwks" the_issuer "appointments:read" (Some "APPT1") None true.

Definition world1 : world := World 1000 [FetchOk jwks1] 0.

Definition bearer (token : string) : Request :=
  Req "/" (Some ("Bearer " +:+ token)).

(** *** An orchestrator with one vaccination agent *)

Definition vax : string := "Pet Vaccination Assistant".

Definition environ1 : gmap string string := {[ "VACCINATION_APP_SECRET" := "s3cret" ]}.

Definition exchanger0 : TokenExchange.TokenExchanger :=
  TokenExchange.Exchanger "https://idp/oauth2/token" "ORCH" "orch-secret" None ∅.

Definition g0 : Orchestrator.globals :=
  Orchestrator.Globals
    {[ vax := "http://localhost:10005" ]}
    (Some exchanger0)
    (Some "MASTER")
    {[ vax := TokenExchange.Config vax "VAX1" "s3cret" "vaccination:read" ]}
    ∅.

Definition actor_ok : Net.response :=
  Response 200 "" (Some {[ "access_token" := JStr "ACTOR" ]}).

Definition exchange_ok : Net.response :=
  Response 200 "" (Some {[ "access_token" := JStr "D1"; "expires_in" := JNum 3600 ]}).

Definition reply : Net.response := Response 200 "Dogs need rabies shots." None.

(** At time 1000: the IdP will answer the next two requests, then the
    agent replies. *)
Definition w0 : Net.world :=
  Net.World 1000 [(0, actor_ok); (0, exchange_ok); (0, reply)] [].

(** Globals in which a token for the vaccination agent is already stored. *)
Definition g_stored (tok : string) : Orchestrator.globals :=
  Orchestrator.Globals {[ vax := "http://localhost:10005" ]} None None ∅ {[ vax := tok ]}.

(** *** Interactive logins *)

Definition user0 : UserAuth.UserAuthenticator :=
  UserAuth.Authenticator "https://idp/oauth2/device_authorize" "https://idp/oauth2/token"
    "ORCH" "orch-secret" "vaccination:read appointments:read openid profile"
    JNull JNull None.

Definition device_ok : Net.response :=
  Response 200 "" (Some {[ "device_code" := JStr "dev-1"; "user_code" := JStr "ABCD";
                           "interval" := JNum 5 ]}).

Definition pending_answer : Net.response :=
  Response 400 "" (Some {[ "error" := JStr "authorization_pending" ]}).

Definition login_ok (token : string) : Net.response :=
  Response 200 "" (Some {[ "access_token" := JStr token; "expires_in" := JNum 3600 ]}).

(** The mock token endpoint of the polling scenario. *)
Definition polling_answers : list (Z * Net.response) :=
  [(0, pending_answer); (0, pending_answer); (0, pending_answer);
   (0, login_ok "MASTER-1")].

Definition slow_down_answer : Net.response :=
  Response 400 "" (Some {[ "error" := JStr "slow_down" ]}).

Definition denied_answer : Net.response :=
  Response 400 "" (Some {[ "error" := JStr "access_denied" ]}).

Definition browser0 : BrowserAuth.BrowserAuthenticator :=
  BrowserAuth.Authenticator "https://idp/oauth2/authorize" "https://idp/oauth2/token"
    "ORCH" "orch-secret" "http://localhost:8080/callback"
    "openid profile vaccination:read appointments:read" None JNull JNull.


End Sample.

(** ** Further vocabulary and sample data *)

Module Cases.
Import Middleware.

(** The verifier [self] created with another [required_scope]. *)
Definition set_required_scope (self : AsgardeoJWTMiddleware) (scope : string)
  : AsgardeoJWTMiddleware :=
  Mw (jwks_url self) (issuer self) scope (agent_id self)
     (api_resource_identifier self) (enabled self) (valid_audiences self)
     (_jwks_cache self) (_jwks_cache_time self) (_jwks_cache_duration self)
     (_public_paths self).

(** The JWKS endpoint does not answer the next request. *)
Definition endpoint_down (w : world) : Prop :=
  jwks_endpoint w = [] \/ exists rest, jwks_endpoint w = FetchFail :: rest.

(** A verifier that fetched [Sample.jwks1] at time 1000. *)
Definition warm_verifier : AsgardeoJWTMiddleware :=
  set_jwks_cache Sample.appt_verifier Sample.jwks1 1000.

(** The tokens of [Sample.parse] and one more, signed with the published
    key, whose audience is the array [["APPT1"]]. *)
Definition parse_more (token : string) : option SymbolicJose.jwt :=
  if String.eqb token "tok-list-aud" then
    Some (SymbolicJose.Jwt {[ "alg" := JStr "RS256"; "kid" := JStr "k1" ]}
            (Sample.claims_for (JList ["APPT1"]) 5000) (JStr "modulus-1"))
  else Sample.parse token.

Definition jose_more : Jose := SymbolicJose.jose parse_more.

(** A key set whose first entry has no ['kid']. *)
Definition jwks_unnamed_first : jwks_doc :=
  {[ "keys" := [ ({[ "kty" := JStr "RSA" ]} : dict); Sample.key1 ] ]}.

End Cases.

Module Scenarios.
Import TokenExchange Orchestrator.

(** An agent whose name holds none of the words the exchanger knows,
    fully configured in the environment and in [AGENT_CONFIGS]. *)
Definition weather : string := "Weather Forecast Service".

Definition environ_weather : gmap string string :=
  {[ "WEATHER_APP_ID" := "WX1"; "WEATHER_APP_SECRET" := "wx-secret";
     "WEATHER_REQUIRED_SCOPE" := "weather:read" ]}.

Definition g_weather : globals :=
  Globals {[ weather := "http://localhost:10007" ]}
          (Some Sample.exchanger0) (Some "MASTER")
          {[ weather := Config weather "WX1" "wx-secret" "weather:read" ]}
          ∅.

(** The identity provider turns the client down. *)
Definition rejected : response := Response 401 "invalid_client" None.

(** The world after the exchange of [Sample.w0] has gone through. *)
Definition w_exchanged : world :=
  World 1000 [(0, Sample.reply)]
    [(actor_token_request Sample.exchanger0 "VAX1" "s3cret", Some Sample.actor_ok);
     (exchange_request Sample.exchanger0 "MASTER" "VAX1" "s3cret" "vaccination:read",
      Some Sample.exchange_ok)].

(** The time that polling through [answers] takes: for each answer, the
    time it takes to arrive and the sleep that follows it. *)
Definition polling_time (interval : Z) (answers : list (Z * response)) : Z :=
  foldr (fun answer t => Z.max 0 answer.1 + Z.max 0 interval + t) 0 answers.

(** The poll requests that received [answers]. *)
Definition polls (self : UserAuth.UserAuthenticator) (device_code : jval)
    (answers : list (Z * response)) : list (request * option response) :=
  (fun answer => (UserAuth.poll_request self device_code, Some answer.2)) <$> answers.

(** An authenticator that logged in at time 1000 and holds a refresh
    token. *)
Definition user_logged_in : UserAuth.UserAuthenticator :=
  UserAuth.set_tokens Sample.user0 (JStr "MASTER-1") (JStr "REFRESH-1") (Some 4600).

Definition refresh_ok : response :=
  Response 200 "" (Some {[ "access_token" := JStr "MASTER-2"; "expires_in" := JNum 3600 ]}).

(** A stand-in for PyJWT: the assertion names the key it was signed
    with. *)
Definition jwt_stub : PyJWT :=
  {| encode payload key := "assertion-signed-with-" +:+ key |}.

(** The callback of a consenting user. *)
Definition callback_with_code : Delegation.query :=
  {[ "code" := ("CODE-1", []); "state" := ("xyz", []) ]}.

(** The callback of a user who refused, as the identity provider sends
    it. *)
Definition callback_with_error : Delegation.query :=
  {[ "error" := ("access_denied", []); "code" := ("CODE-1", []) ]}.

Definition actor_minted : response :=
  Response 200 "" (Some {[ "access_token" := JStr "ACTOR-1" ]}).

Definition delegated_ok : response :=
  Response 200 "" (Some {[ "access_token" := JStr "DELEGATED-1" ]}).

(** The delegation flow of the examples: the vaccination agent as actor,
    a consenting user, and an identity provider that answers both
    requests. *)
Definition delegation_run
  : result string * BrowserAuth.callback * world :=
  @Delegation.authenticate_user_with_delegation jwt_stub Sample.browser0
    "VAX1" "s3cret" "vaccination:read" ["vaccination:read"] "jti-1" "verifier-1"
    (Some callback_with_code) Delegation.reset_handler
    (World 1000 [(0, actor_minted); (0, delegated_ok)] []).

(** The identity provider answers the token exchange with an empty
    access token. *)
Definition exchange_empty : response :=
  Response 200 "" (Some {[ "access_token" := JStr ""; "expires_in" := JNum 3600 ]}).

Definition w_empty_token : world :=
  World 1000 [(0, Sample.actor_ok); (0, exchange_empty); (0, Sample.reply)] [].

(** Globals after a start without authentication: agents are known and
    configured, but there is neither an exchanger nor a master token. *)
Definition g_unauthenticated : globals :=
  Globals {[ Sample.vax := "http://localhost:10005" ]} None None
          {[ Sample.vax := Config Sample.vax "VAX1" "s3cret" "vaccination:read" ]} ∅.

End Scenarios.

(** * Properties of the bearer token verifier *)

Section MiddlewareFacts.
Import Middleware.
Context `{J : Jose}.

Lemma split_truthy (s : string) (x : string) (l : list string) :
  split s = x :: l -> truthy s = true.
Proof. destruct s; [discriminate | reflexivity]. Qed.

(** [_get_jwks] touches the cache only: the configuration is unchanged. *)
Lemma get_jwks_config self w r self1 w1 :
  _get_jwks self w = (r, self1, w1) ->
  issuer self1 = issuer self /\ valid_audiences self1 = valid_audiences self
  /\ enabled self1 = enabled self /\ now w1 = now w.
Proof.
  unfold _get_jwks, requests_get. intros E.
  repeat case_match; simplify_eq; done.
Qed.

(** [_get_jwks] asks the endpoint at most once. *)
Lemma get_jwks_fetches self w r self1 w1 :
  _get_jwks self w = (r, self1, w1) ->
  (fetches w1 <= S (fetches w))%nat.
Proof.
  unfold _get_jwks, requests_get. intros E.
  repeat case_match; simplify_eq; simpl; lia.
Qed.

(** A cache younger than its duration is served without any request. *)
Lemma get_jwks_fresh self w c t :
  _jwks_cache self = Some c -> _jwks_cache_time self = Some t ->
  now w - t < _jwks_cache_duration self ->
  _get_jwks self w = (Ok c, self, w).
Proof.
  intros Hc Ht Hlt. unfold _get_jwks. rewrite Hc, Ht.
  destruct (Z.ltb_spec (now w - t) (_jwks_cache_duration self)); [done | lia].
Qed.

(** No entry carries the wanted key id: the loop runs to its end. *)
Lemma find_key_none (keys : list dict) (key_id : jval) :
  Forall (fun key : dict => exists k, key !! "kid" = Some k /\ k <> key_id) keys ->
  find_key keys key_id = Ok None.
Proof.
  induction 1 as [| key rest (k & Hk & Hne) _ IH]; [done |].
  simpl. unfold item. rewrite Hk. simpl.
  rewrite bool_decide_eq_false_2 by done. exact IH.
Qed.

(** A well-formed ["Bearer <token>"] header on a protected path of an
    enabled verifier reaches [_validate_token]. *)
Lemma dispatch_bearer self request w auth_header scheme token :
  enabled self = true ->
  _is_public_path self (path request) = false ->
  authorization request = Some auth_header ->
  split auth_header = [scheme; token] ->
  lower scheme = "bearer" ->
  dispatch self request w =
    match _validate_token self token w with
    | (Ok payload, self', w') =>
        (CallNext (Some (payload, get payload "client_id")), self', w')
    | (Raise (JWTError m), self', w') =>
        (JSONResponse 401 "invalid_token" (ErrorText m), self', w')
    | (Raise _, self', w') =>
        (JSONResponse 500 "server_error"
           (Text "Token validation failed due to server error"), self', w')
    end.
Proof.
  intros He Hp Ha Hs Hl. unfold dispatch.
  rewrite He, Hp, Ha. simpl.
  rewrite (split_truthy _ _ _ Hs). simpl. rewrite Hs, Hl. reflexivity.
Qed.

(** What [_validate_token] does once the key set is at hand and the token
    header is readable. *)
Lemma validate_token_unfold self token w jwks self1 w1 hdr keys :
  _get_jwks self w = (Ok jwks, self1, w1) ->
  get_unverified_header token = Ok hdr ->
  jwks !! "keys" = Some keys ->
  _validate_token self token w =
    (rewrap
       (rsa_key ← find_key keys (get hdr "kid");
        match rsa_key with
        | None => Raise (JWTError (KeyNotFound (get hdr "kid")))
        | Some rsa_key =>
            unverified_payload ← get_unverified_claims token;
            payload ← decode token rsa_key (issuer self1) (now w1);
            if (negb (bool_decide (valid_audiences self1 = []))
                && negb (in_strs (get payload "aud") (valid_audiences self1)))%bool
            then Raise (JWTError (InvalidAudience (valid_audiences self1)
                                    (get payload "aud")))
            else Ok payload
        end),
     self1, w1).
Proof.
  intros Hj Hh Hk. unfold _validate_token. rewrite Hj. simpl.
  rewrite Hh. simpl. unfold jwks_keys. rewrite Hk. reflexivity.
Qed.

End MiddlewareFacts.

Section VerifierProperties.
Import Middleware.
Context `{J : Jose}.

Lemma find_key_total (keys : list dict) (key_id : jval) :
  Forall well_formed_key keys -> exists o, find_key keys key_id = Ok o.
Proof.
  induction 1 as [| key rest (Hkid & Hkty & Huse & Hn & He) _ IH]; [by eexists |].
  destruct Hkid as [kid Hkid], Hkty as [kty Hkty], Huse as [use Huse],
    Hn as [n Hn], He as [e He].
  simpl. unfold item. rewrite Hkid. simpl.
  case_bool_decide; [| exact IH].
  rewrite Hkty, Huse, Hn, He. simpl. by eexists.
Qed.

Lemma audience_ok_test self payload :
  audience_ok self payload <->
  (negb (bool_decide (valid_audiences self = []))
   && negb (in_strs (get payload "aud") (valid_audiences self)))%bool = false.
Proof.
  unfold audience_ok. case_bool_decide; simpl.
  - split; [done | by left].
  - destruct (in_strs _ _); simpl; split; try done.
    + by right.
    + intros [? | ?]; done.
Qed.

(** C5: a bearer token on a protected path whose key id matches no entry
    of the verifier's current JWKS is answered 401 [invalid_token]; the
    verifier's state afterwards is the one left by the single [_get_jwks]
    call, so no refresh is forced: at most one request went to the JWKS
    endpoint, and none when the cache was still fresh. *)
Theorem C5_unknown_kid_is_401 self request w auth_header scheme token hdr
    jwks keys self1 w1 :
  enabled self = true ->
  _is_public_path self (path request) = false ->
  authorization request = Some auth_header ->
  split auth_header = [scheme; token] ->
  lower scheme = "bearer" ->
  get_unverified_header token = Ok hdr ->
  _get_jwks self w = (Ok jwks, self1, w1) ->
  jwks !! "keys" = Some keys ->
  Forall (fun key : dict => exists k, key !! "kid" = Some k /\ k <> get hdr "kid") keys ->
  dispatch self request w =
    (JSONResponse 401 "invalid_token"
       (ErrorText (ValidationFailed (KeyNotFound (get hdr "kid")))), self1, w1)
  /\ (fetches w1 <= S (fetches w))%nat
  /\ (forall c t, _jwks_cache self = Some c -> _jwks_cache_time self = Some t ->
        now w - t < _jwks_cache_duration self -> fetches w1 = fetches w).
Proof.
  intros He Hp Ha Hs Hl Hh Hj Hk Hall. split; [| split].
  - rewrite (dispatch_bearer _ _ _ _ _ _ He Hp Ha Hs Hl).
    rewrite (validate_token_unfold _ _ _ _ _ _ _ _ Hj Hh Hk).
    rewrite (find_key_none _ _ Hall). reflexivity.
  - eapply get_jwks_fetches; eassumption.
  - intros c t Hc Ht Hlt.
    rewrite (get_jwks_fresh _ _ _ _ Hc Ht Hlt) in Hj. by simplify_eq.
Qed.

(** C10: a verifier created with neither an agent id nor an API resource
    identifier (as arguments or in the environment) has an empty list of
    valid audiences, and then every token that selects a key and passes
    [jwt.decode] is returned by [_validate_token], whatever its [aud]. *)
Theorem C10_no_audience_configured environ jwks_url iss scope agent_id api on :
  or_str agent_id (default "" (environ !! "APPOINTMENTS_APP_ID")) = "" ->
  or_str api (default "" (environ !! "API_RESOURCE_IDENTIFIER")) = "" ->
  valid_audiences (__init__ environ jwks_url iss scope agent_id api on) = []
  /\ forall self token w jwks self1 w1 hdr keys rsa_key unverified payload,
       valid_audiences self =
         valid_audiences (__init__ environ jwks_url iss scope agent_id api on) ->
       _get_jwks self w = (Ok jwks, self1, w1) ->
       get_unverified_header token = Ok hdr ->
       jwks !! "keys" = Some keys ->
       find_key keys (get hdr "kid") = Ok (Some rsa_key) ->
       get_unverified_claims token = Ok unverified ->
       decode token rsa_key (issuer self) (now w) = Ok payload ->
       _validate_token self token w = (Ok payload, self1, w1).
Proof.
  intros Ha Hr.
  assert (Hnil : valid_audiences (__init__ environ jwks_url iss scope agent_id api on) = []).
  { unfold __init__. simpl. rewrite Ha, Hr. reflexivity. }
  split; [exact Hnil |].
  intros self token w jwks self1 w1 hdr keys rsa_key unverified payload
    Hv Hj Hh Hk Hf Hc Hd.
  rewrite Hnil in Hv.
  destruct (get_jwks_config _ _ _ _ _ Hj) as (Hi & Hva & _ & Hn).
  rewrite (validate_token_unfold _ _ _ _ _ _ _ _ Hj Hh Hk).
  rewrite Hf. simpl. rewrite Hc. simpl. rewrite Hi, Hn, Hd. simpl.
  rewrite Hva, Hv. reflexivity.
Qed.

Lemma jwt_only_raise {A} (e : exn) : jwt_only (@Raise A e) -> not_jwt e -> False.
Proof. by destruct e. Qed.

(** The token is not [verified]: a step it needs has another result. *)
Ltac not_verified :=
  intros [(? & ? & ? & ? & ? & ? & ?) _]; exfalso; congruence.

(** [server_fault] holds only through the step that did raise. *)
Ltac fault_step :=
  intros [(? & ? & ?)
         | (? & ? & [(? & ? & ?)
                    | (? & ? & [(? & ? & ?) | (? & ? & ? & ? & ?)])])];
  first
    [ exfalso; congruence
    | eexists; split; [reflexivity |];
      match goal with
      | Hn : not_jwt ?e0 |- not_jwt ?e => replace e with e0 by congruence; exact Hn
      end ].

(** The three outcomes of [_validate_token] once the key set is at hand:
    what it returns, and when it fails with something else than a
    [JWTError]. *)
Lemma validate_token_outcome self token w jwks keys self1 w1 :
  _get_jwks self w = (Ok jwks, self1, w1) ->
  jwks !! "keys" = Some keys ->
  exists r,
    _validate_token self token w = (rewrap r, self1, w1)
    /\ (forall payload,
          r = Ok payload <-> verified self1 w1 keys token payload /\ audience_ok self1 payload)
    /\ ((exists e, r = Raise e /\ not_jwt e) <-> server_fault self1 w1 keys token).
Proof.
  intros Hj Hk. unfold _validate_token. rewrite Hj. cbn [mbind result_bind].
  eexists. split; [reflexivity |].
  unfold verified, server_fault, jwks_keys. rewrite Hk.
  destruct (get_unverified_header token) as [hdr | e] eqn:Eh; cbn [mbind result_bind].
  2:{ split; [intros payload; split; [intros E; discriminate E | not_verified] |].
      split; [intros (e' & [= <-] & He); left; eauto | fault_step]. }
  destruct (find_key keys (get hdr "kid")) as [[rsa_key |] | e] eqn:Ef;
    cbn [mbind result_bind].
  3:{ split; [intros payload; split; [intros E; discriminate E | not_verified] |].
      split; [intros (e' & [= <-] & He); right; exists hdr; split; [done |]; left; eauto
             | fault_step]. }
  2:{ split; [intros payload; split; [intros E; discriminate E | not_verified] |].
      split; [intros (e' & [= <-] & He); destruct He | fault_step]. }
  destruct (get_unverified_claims token) as [unverified | e] eqn:Ec;
    cbn [mbind result_bind].
  2:{ split; [intros payload; split; [intros E; discriminate E | not_verified] |].
      split; [| fault_step].
      intros (e' & [= <-] & He). right. exists hdr. split; [done |]. right.
      exists rsa_key. split; [done |]. left. eauto. }
  destruct (decode token rsa_key (issuer self1) (now w1)) as [payload | e] eqn:Ed;
    cbn [mbind result_bind].
  2:{ split; [intros payload; split; [intros E; discriminate E | not_verified] |].
      split; [| fault_step].
      intros (e' & [= <-] & He). right. exists hdr. split; [done |]. right.
      exists rsa_key. split; [done |]. right. exists unverified, e. done. }
  destruct (negb (bool_decide (valid_audiences self1 = []))
            && negb (in_strs (get payload "aud") (valid_audiences self1)))%bool eqn:Ea.
  - split.
    + intros payload'. split; [intros E; discriminate E |].
      intros [(? & ? & ? & ? & ? & ? & ?) Hok].
      assert (payload' = payload) as -> by congruence.
      apply audience_ok_test in Hok. congruence.
    + split; [intros (e' & [= <-] & He); destruct He | fault_step].
  - apply audience_ok_test in Ea. split.
    + intros payload'. split.
      * intros [= <-]. split; [| done]. by exists hdr, rsa_key, unverified.
      * intros [(? & ? & ? & ? & ? & ? & ?) _].
        assert (payload' = payload) as -> by congruence. reflexivity.
    + split; [intros (e' & E & _); discriminate E | fault_step].
Qed.

(** C1, as amended: on a protected path of an enabled verifier whose JWKS
    is at hand, a bearer token is forwarded with its claims attached
    exactly when it is readable, selects a key, passes [jwt.decode]
    (signature, issuer, expiry), and either the list of valid audiences is
    empty or its [aud] is a member.  A request that is not forwarded is
    answered 500 [server_error] exactly when a step of the validation
    raises an exception that is not a [JWTError], and 401 [invalid_token]
    in every other case.  With a well-formed key set and a library that
    raises nothing but [JWTError] (for [jwt.decode]: with the key the token
    selects), no step does, and the answer is 401. *)
Theorem C1_accepts_iff_verified_and_audience self request w auth_header scheme
    token jwks keys self1 w1 :
  enabled self = true ->
  _is_public_path self (path request) = false ->
  authorization request = Some auth_header ->
  split auth_header = [scheme; token] ->
  lower scheme = "bearer" ->
  _get_jwks self w = (Ok jwks, self1, w1) ->
  jwks !! "keys" = Some keys ->
  (forall payload,
     dispatch self request w =
       (CallNext (Some (payload, get payload "client_id")), self1, w1)
     <-> verified self1 w1 keys token payload /\ audience_ok self1 payload)
  /\ (dispatch self request w =
        (JSONResponse 500 "server_error"
           (Text "Token validation failed due to server error"), self1, w1)
      <-> server_fault self1 w1 keys token)
  /\ ((exists m, dispatch self request w =
                   (JSONResponse 401 "invalid_token" (ErrorText m), self1, w1))
      <-> ~ (exists payload,
               verified self1 w1 keys token payload /\ audience_ok self1 payload)
          /\ ~ server_fault self1 w1 keys token)
  /\ (Forall well_formed_key keys ->
      jwt_only (get_unverified_header token) ->
      jwt_only (get_unverified_claims token) ->
      (forall hdr rsa_key,
         get_unverified_header token = Ok hdr ->
         find_key keys (get hdr "kid") = Ok (Some rsa_key) ->
         jwt_only (decode token rsa_key (issuer self1) (now w1))) ->
      ~ server_fault self1 w1 keys token).
Proof.
  intros He Hp Ha Hs Hl Hj Hk.
  rewrite (dispatch_bearer _ _ _ _ _ _ He Hp Ha Hs Hl).
  assert (Forall well_formed_key keys ->
          jwt_only (get_unverified_header token) ->
          jwt_only (get_unverified_claims token) ->
          (forall hdr rsa_key,
             get_unverified_header token = Ok hdr ->
             find_key keys (get hdr "kid") = Ok (Some rsa_key) ->
             jwt_only (decode token rsa_key (issuer self1) (now w1))) ->
          ~ server_fault self1 w1 keys token) as Hclean.
  { intros Hwf Hh Hc Hd
      [(e & E & Hn)
      | (hdr & Eh & [(e & E & Hn)
                    | (rsa_key & Ef & [(e & E & Hn) | (u & e & Ec & E & Hn)])])].
    - rewrite E in Hh. exact (jwt_only_raise e Hh Hn).
    - destruct (find_key_total keys (get hdr "kid") Hwf) as [o Ho]. congruence.
    - rewrite E in Hc. exact (jwt_only_raise e Hc Hn).
    - specialize (Hd _ _ Eh Ef). rewrite E in Hd. exact (jwt_only_raise e Hd Hn). }
  destruct (validate_token_outcome self token w jwks keys self1 w1 Hj Hk)
    as (r & -> & Hok & Hfault).
  destruct r as [payload | e]; cbn [rewrap].
  - assert (~ server_fault self1 w1 keys token) as Hnf.
    { intros Hf. apply Hfault in Hf as (e & E & _). discriminate E. }
    split; [| split; [| split; [| exact Hclean]]].
    + intros payload'. rewrite <- Hok. split; [intros E | intros E]; by simplify_eq.
    + split; [intros E; discriminate E | done].
    + split; [intros [m E]; discriminate E |].
      intros [Hna _]. destruct Hna. exists payload. by apply Hok.
  - assert (~ (exists payload,
                 verified self1 w1 keys token payload /\ audience_ok self1 payload)) as Hna.
    { intros [payload Hv]. apply Hok in Hv. discriminate Hv. }
    assert (forall payload,
              verified self1 w1 keys token payload /\ audience_ok self1 payload -> False)
      as Hno by (intros payload Hv; apply Hna; by exists payload).
    destruct e as [m | k | | | n | code | | | text]; cbn [rewrap].
    2-9: assert (server_fault self1 w1 keys token) as Hf
           by (apply Hfault; eexists; split; [reflexivity | exact I]).
    2-9: split; [| split; [| split; [| exact Hclean]]];
           [ intros payload; split; [intros E; discriminate E | intros Hv; destruct (Hno _ Hv)]
           | split; [intros _; exact Hf | reflexivity]
           | split; [intros [m E]; discriminate E | intros [_ Hnf]; destruct (Hnf Hf)] ].
    assert (~ server_fault self1 w1 keys token) as Hnf.
    { intros Hf. apply Hfault in Hf as (e & [= <-] & He'). destruct He'. }
    split; [| split; [| split; [| exact Hclean]]].
    + intros payload. split; [intros E; discriminate E | intros Hv; destruct (Hno _ Hv)].
    + split; [intros E; discriminate E | intros Hf; destruct (Hnf Hf)].
    + split; [intros _; by split | intros _; by eexists].
Qed.

End VerifierProperties.

Section VerifierExamples.
Import Middleware Sample.

Lemma C5_witness :
  (@dispatch jose appt_verifier (bearer "tok-rotated") world1).1.1 =
    JSONResponse 401 "invalid_token"
      (ErrorText (ValidationFailed (KeyNotFound (JStr "k2")))).
Proof.
  edestruct (@C5_unknown_kid_is_401 jose appt_verifier (bearer "tok-rotated") world1)
    as [E _];
    [reflexivity ..
    | repeat constructor; exists (JStr "k1"); split; [reflexivity | discriminate]
    | rewrite E; reflexivity].
Defined.

Lemma C10_witness :
  valid_audiences open_verifier = [] /\
  (@_validate_token jose open_verifier "tok-other-aud" world1).1.1 =
    Ok (claims_for (JStr "someone-else") 5000).
Proof.
  destruct (@C10_no_audience_configured jose ∅ "https://idp/jwks" the_issuer
              "appointments:read" None None true) as [Hnil Hall];
    [vm_compute; reflexivity .. |].
  split; [exact Hnil |].
  erewrite (Hall open_verifier "tok-other-aud" world1); reflexivity.
Defined.

Lemma C1_witness :
  (@dispatch jose appt_verifier (bearer "tok-appt") world1).1.1 =
    CallNext (Some (claims_for (JStr "APPT1") 5000, JStr "VAX1")).
Proof.
  destruct (@C1_accepts_iff_verified_and_audience jose appt_verifier
              (bearer "tok-appt") world1 "Bearer tok-appt" "Bearer" "tok-appt"
              jwks1 [key1] (set_jwks_cache appt_verifier jwks1 1000)
              (World 1000 [] 1)) as [Hiff _];
    [reflexivity .. |].
  rewrite (proj2 (Hiff (claims_for (JStr "APPT1") 5000))); [reflexivity |].
  split; [| by right].
  eexists _, _, _. repeat split; reflexivity.
Defined.

(** C1 as stated fails on a verifier with an empty list of valid
    audiences: a token issued for ["someone-else"] matches no member of the
    accepted set, and the request is forwarded with its claims attached. *)
Lemma C1_counterexample :
  valid_audiences open_verifier = [] /\
  in_strs (JStr "someone-else") (valid_audiences open_verifier) = false /\
  (@dispatch jose open_verifier (bearer "tok-other-aud") world1).1.1 =
    CallNext (Some (claims_for (JStr "someone-else") 5000, JStr "VAX1")).
Proof. repeat split; vm_compute; reflexivity. Qed.

End VerifierExamples.

Section VerifierFactory.
Import Middleware.

(** C7, as amended: the factory creates the verifier disabled exactly when
    ASGARDEO_AUTH_ENABLED is set to something other than "true" (in any
    letter case) or the JWKS URL or the issuer is unset or empty; in the
    latter case it raises no error: it prints two warning lines and
    returns a verifier that forwards everything.  With both settings
    present and the flag unset, the verifier is enabled. *)
Theorem C7_disabled_by_flag_or_missing_configuration environ scope agent_id :
  let flag := lower (default "true" (environ !! "ASGARDEO_AUTH_ENABLED")) in
  let missing := (unset (environ !! "ASGARDEO_JWKS_URL")
                  || unset (environ !! "ASGARDEO_ISSUER"))%bool in
  let mw := (create_jwt_middleware_from_env environ scope agent_id).1 in
  let printed := (create_jwt_middleware_from_env environ scope agent_id).2 in
  (enabled mw = false <-> flag <> "true" \/ missing = true)
  /\ (missing = true <->
      printed = ["[Auth] Warning: Asgardeo configuration missing. Authentication disabled.";
                 "[Auth] Set ASGARDEO_JWKS_URL and ASGARDEO_ISSUER to enable authentication."])
  /\ (environ !! "ASGARDEO_AUTH_ENABLED" = None -> missing = false -> enabled mw = true)
  /\ (enabled mw = false ->
      forall (J : Jose) request w, dispatch mw request w = (CallNext None, mw, w)).
Proof.
  cbv zeta. unfold create_jwt_middleware_from_env.
  destruct (unset (environ !! "ASGARDEO_JWKS_URL") || unset (environ !! "ASGARDEO_ISSUER"))%bool
    eqn:Em; simpl.
  - split; [| split; [| split]].
    + split; [by right | done].
    + done.
    + done.
    + intros _ J request w. reflexivity.
  - split; [| split; [| split]].
    + destruct (String.eqb_spec
                  (lower (default "true" (environ !! "ASGARDEO_AUTH_ENABLED"))) "true")
        as [Ef | Ef].
      * split; [done |]. intros [? | ?]; done.
      * split; [by left | done].
    + done.
    + intros ->. reflexivity.
    + intros E J request w. unfold dispatch. simpl. rewrite E. reflexivity.
Qed.

Lemma C7_witness :
  enabled (create_jwt_middleware_from_env
             {[ "ASGARDEO_JWKS_URL" := "https://idp/jwks";
                "ASGARDEO_ISSUER" := Sample.the_issuer ]}
             "appointments:read" (Some "APPT1")).1 = true.
Proof.
  pose proof (C7_disabled_by_flag_or_missing_configuration
                {[ "ASGARDEO_JWKS_URL" := "https://idp/jwks";
                   "ASGARDEO_ISSUER" := Sample.the_issuer ]}
                "appointments:read" (Some "APPT1")) as H.
  cbv zeta in H. destruct H as (_ & _ & H & _).
  apply H; vm_compute; reflexivity.
Defined.

(** C7 as stated fails with an empty environment: no flag opts out of
    verification, the factory returns normally, and the verifier it
    returns is disabled and forwards a request that carries no token. *)
Lemma C7_counterexample :
  let mw := (create_jwt_middleware_from_env ∅ "appointments:read" None).1 in
  (∅ : gmap string string) !! "ASGARDEO_AUTH_ENABLED" = None
  /\ enabled mw = false
  /\ (@dispatch Sample.jose mw (Req "/" None) Sample.world1).1.1 = CallNext None.
Proof. repeat split; vm_compute; reflexivity. Qed.

End VerifierFactory.

(** * Properties of the token exchanger *)

Section ExchangerFacts.
Import TokenExchange.

(** A request appends exactly one entry to the log. *)
Lemma post_log req w r w' :
  post req w = (r, w') -> log w' = log w ++ [(req, answer_of r)].
Proof.
  unfold post. intros E. destruct (script w) as [| [d x] rest]; by simplify_eq.
Qed.

Lemma store_lookup self agent_name tok issued lifetime :
  _token_cache (store self agent_name tok issued lifetime) !! agent_name
  = Some (Entry tok (issued + lifetime - 60)).
Proof. unfold store. simpl. apply lookup_insert_eq. Qed.

Lemma truthy_nonempty (s : string) : s <> "" -> truthy s = true.
Proof.
  intros H. unfold truthy. destruct (String.eqb_spec s ""); [done | reflexivity].
Qed.

Lemma get_cached_live self agent_name e time :
  _token_cache self !! agent_name = Some e -> time < expiry e ->
  _get_cached_token self agent_name time = (Some (token e), self).
Proof.
  intros He Hlt. unfold _get_cached_token. rewrite He.
  destruct (Z.ltb_spec time (expiry e)); [done | lia].
Qed.

Lemma get_cached_expired self agent_name e time :
  _token_cache self !! agent_name = Some e -> expiry e <= time ->
  _get_cached_token self agent_name time
  = (None, set_cache self (delete agent_name (_token_cache self))).
Proof.
  intros He Hle. unfold _get_cached_token. rewrite He.
  destruct (Z.ltb_spec time (expiry e)); [lia | done].
Qed.

(** X1: the exchanger's own cache hands out an entry only while the clock
    is strictly before its recorded expiry, and leaves the exchanger as it
    was. *)
Theorem get_cached_token_not_stale self agent_name time tok self' :
  _get_cached_token self agent_name time = (Some tok, self') ->
  exists e, _token_cache self !! agent_name = Some e /\ token e = tok
            /\ time < expiry e /\ self' = self.
Proof.
  unfold _get_cached_token. intros E.
  destruct (_token_cache self !! agent_name) as [e |]; [| discriminate].
  destruct (Z.ltb_spec time (expiry e)); simplify_eq. by exists e.
Qed.




End ExchangerFacts.

Section ExchangeTraffic.
Import TokenExchange.
#[local] Arguments store : simpl never.
#[local] Arguments post : simpl never.
#[local] Arguments exchange_request : simpl never.
#[local] Arguments actor_token_request : simpl never.

(** What a successful fresh exchange consists of. *)
Lemma perform_exchange_ok environ self master agent_name cid scope w tok self' w' :
  perform_exchange environ self master agent_name cid scope w = (Ok tok, self', w') ->
  exists secret a x d2 lifetime actor w1,
    _get_agent_secret environ agent_name = Some secret
    /\ post (actor_token_request self cid secret) w = (Ok a, w1)
    /\ status_code a = 200
    /\ json_of a ≫= access_token = Ok actor
    /\ post (exchange_request self master cid secret scope) w1 = (Ok x, w')
    /\ status_code x = 200
    /\ json_of x = Ok d2 /\ access_token d2 = Ok tok /\ expires_in d2 = Ok lifetime
    /\ self' = store self agent_name tok (now w') lifetime.
Proof.
  unfold perform_exchange, _get_actor_token. intros E.
  destruct (_get_agent_secret environ agent_name) as [secret |]; [| discriminate].
  destruct (post (actor_token_request self cid secret) w) as [r w1] eqn:E1.
  destruct r as [a | e]; simpl in E; [| discriminate].
  destruct (status_code a =? 200) eqn:Sa; simpl in E; [| discriminate].
  destruct (json_of a) as [d |] eqn:Ja; simpl in E; [| discriminate].
  destruct (access_token d) as [actor |] eqn:Aa; simpl in E; [| discriminate].
  destruct (post (exchange_request self master cid secret scope) w1) as [r2 w2] eqn:E2.
  destruct r2 as [x | e]; [| discriminate].
  destruct (status_code x =? 200) eqn:Sx; simpl in E; [| discriminate].
  destruct (json_of x) as [d2 |] eqn:Jx; simpl in E; [| discriminate].
  destruct (access_token d2) as [t |] eqn:Ax; simpl in E; [| discriminate].
  destruct (expires_in d2) as [n |] eqn:Ex; simpl in E; [| discriminate].
  simplify_eq.
  exists secret, a, x, d2, n, actor, w1.
  apply Z.eqb_eq in Sa, Sx. rewrite Ja. simpl. by repeat split.
Qed.

(** A failed exchange leaves the exchanger as it was. *)
Lemma perform_exchange_raise environ self master agent_name cid scope w e self' w' :
  perform_exchange environ self master agent_name cid scope w = (Raise e, self', w') ->
  self' = self.
Proof.
  unfold perform_exchange. intros E. repeat case_match; by simplify_eq.
Qed.

(** Everything a fresh exchange sends is one of its two requests. *)
Lemma perform_exchange_traffic environ self master agent_name cid scope w :
  exists added,
    log (perform_exchange environ self master agent_name cid scope w).2
    = log w ++ added
    /\ Forall (fun entry : request * option response =>
                 exists secret,
                   entry.1 = actor_token_request self cid secret
                   \/ entry.1 = exchange_request self master cid secret scope) added.
Proof.
  unfold perform_exchange, _get_actor_token.
  destruct (_get_agent_secret environ agent_name) as [secret |]; simpl.
  2:{ exists []. by rewrite app_nil_r. }
  destruct (post (actor_token_request self cid secret) w) as [r w1] eqn:E1.
  pose proof (post_log _ _ _ _ E1) as L1.
  assert (Forall (fun entry : request * option response =>
                    exists secret,
                      entry.1 = actor_token_request self cid secret
                      \/ entry.1 = exchange_request self master cid secret scope)
                 [(actor_token_request self cid secret, answer_of r)]) as F1.
  { repeat constructor. exists secret. by left. }
  destruct (r ≫= _) as [actor | e] eqn:Er; simpl.
  2:{ by eexists. }
  destruct (post (exchange_request self master cid secret scope) w1) as [r2 w2] eqn:E2.
  pose proof (post_log _ _ _ _ E2) as L2.
  exists [(actor_token_request self cid secret, answer_of r);
          (exchange_request self master cid secret scope, answer_of r2)].
  split.
  - assert (log w2 = log w ++ [(actor_token_request self cid secret, answer_of r);
                               (exchange_request self master cid secret scope,
                                answer_of r2)]) as <-
        by (rewrite L2, L1, <- app_assoc; reflexivity).
    repeat case_match; by simplify_eq.
  - repeat constructor; exists secret; [by left | by right].
Qed.

Lemma actor_request_no_actor self cid secret :
  field (actor_token_request self cid secret) "actor_token" = None
  /\ field (actor_token_request self cid secret) "actor_token_type" = None.
Proof. split; reflexivity. Qed.

Lemma exchange_request_no_actor self master cid secret scope :
  field (exchange_request self master cid secret scope) "actor_token" = None
  /\ field (exchange_request self master cid secret scope) "actor_token_type" = None.
Proof.
  unfold field, exchange_request, exchange_data. simpl.
  destruct (api_resource_identifier self) as [api |]; [destruct (truthy api) |];
    split; reflexivity.
Qed.

(** The sibling code exchange of the browser delegation flow does present
    the actor token it was given. *)
Lemma code_exchange_presents_actor_token self auth_code code_verifier actor_token :
  field (BrowserAuth.code_exchange_with_actor_request self auth_code code_verifier
           actor_token) "actor_token" = Some (JStr actor_token).
Proof. reflexivity. Qed.

(** C3, what the code does: for every exchange that succeeds, an actor
    token is first obtained with a client-credentials request carrying the
    agent's own credentials, but nothing sent afterwards (in particular the
    token-exchange request) has an [actor_token] or [actor_token_type]
    field: the minted token is never presented. *)
Theorem C3_actor_token_minted_but_not_presented environ self master agent_name cid
    scope w :
  exists added,
    log (perform_exchange environ self master agent_name cid scope w).2
    = log w ++ added
    /\ Forall (fun entry : request * option response =>
                 field entry.1 "actor_token" = None
                 /\ field entry.1 "actor_token_type" = None) added
    /\ forall tok,
         (perform_exchange environ self master agent_name cid scope w).1.1 = Ok tok ->
         exists secret a x actor,
           added = [(actor_token_request self cid secret, Some a);
                    (exchange_request self master cid secret scope, Some x)]
           /\ field (actor_token_request self cid secret) "grant_type"
              = Some (JStr "client_credentials")
           /\ authz (actor_token_request self cid secret) = Basic cid secret
           /\ json_of a ≫= access_token = Ok actor.
Proof.
  destruct (perform_exchange_traffic environ self master agent_name cid scope w)
    as (added & Hlog & Hall).
  exists added. split; [exact Hlog |]. split.
  - eapply Forall_impl; [exact Hall |].
    intros [req ans] (secret & [-> | ->]); simpl.
    + apply actor_request_no_actor.
    + apply exchange_request_no_actor.
  - intros tok Ht.
    destruct (perform_exchange environ self master agent_name cid scope w)
      as [[r self'] w'] eqn:E. simpl in Ht, Hlog. subst r.
    destruct (perform_exchange_ok _ _ _ _ _ _ _ _ _ _ E)
      as (secret & a & x & d2 & n & actor & w1 & _ & P1 & _ & Ha & P2 & _).
    exists secret, a, x, actor.
    apply post_log in P1, P2. simpl in P1, P2.
    rewrite P2, P1, <- app_assoc in Hlog. apply app_inv_head in Hlog.
    by repeat split.
Qed.

End ExchangeTraffic.

(** * Properties of the orchestrator's outbound calls *)

Section OutboundCalls.
Import TokenExchange Orchestrator.
#[local] Arguments store : simpl never.
#[local] Arguments post : simpl never.
#[local] Arguments exchange_request : simpl never.
#[local] Arguments actor_token_request : simpl never.
#[local] Arguments perform_exchange : simpl never.

Lemma issued_tokens_app l l' :
  issued_tokens (l ++ l') = issued_tokens l ++ issued_tokens l'.
Proof. apply omap_app. Qed.

Lemma exchanged_message (entry : request * option response) text :
  data entry.1 = Message text -> exchanged entry = None.
Proof.
  destruct entry as [req [resp |]]; simpl; [| done].
  intros E. unfold field. rewrite E. reflexivity.
Qed.

Lemma delegated_only_app issued l l' :
  delegated_only issued (l ++ l')
  = (delegated_only issued l && delegated_only (issued ++ issued_tokens l) l')%bool.
Proof.
  revert issued. induction l as [| entry l IH]; intros issued; simpl.
  - by rewrite app_nil_r.
  - destruct (data entry.1) as [fields | text] eqn:Ed.
    + rewrite IH. unfold issued_tokens. simpl.
      destruct (exchanged entry) as [t |]; simpl.
      * by rewrite <- app_assoc.
      * by rewrite app_nil_r.
    + unfold issued_tokens. simpl. rewrite (exchanged_message _ _ Ed).
      destruct (authz entry.1); try reflexivity.
      rewrite IH. by rewrite andb_assoc.
Qed.

Lemma delegated_only_forms issued l :
  Forall is_form l -> delegated_only issued l = true.
Proof.
  intros H. revert issued.
  induction H as [| entry l [fields Hf] _ IH]; intros issued; simpl; [done |].
  rewrite Hf. apply IH.
Qed.

Lemma exchange_request_issues self master cid secret scope x d tok :
  status_code x = 200 -> json_of x = Ok d -> access_token d = Ok tok ->
  exchanged (exchange_request self master cid secret scope, Some x) = Some tok.
Proof.
  intros Hs Hj Ha. unfold exchanged.
  assert (field (exchange_request self master cid secret scope) "grant_type"
          = Some token_exchange_grant) as -> by reflexivity.
  rewrite bool_decide_eq_true_2 by done. rewrite Hs. simpl.
  rewrite Hj. simpl. by rewrite Ha.
Qed.

Lemma traffic_is_form self master cid scope added :
  Forall (fun entry : request * option response =>
            exists secret,
              entry.1 = actor_token_request self cid secret
              \/ entry.1 = exchange_request self master cid secret scope) added ->
  Forall is_form added.
Proof.
  intros H. eapply Forall_impl; [exact H |].
  intros [req ans] (secret & [E | E]); simpl in E; subst req; by eexists.
Qed.

Lemma cache_issued_mono exchanger l added :
  cache_issued exchanger l -> cache_issued exchanger (l ++ added).
Proof.
  intros H agent_name e He. rewrite issued_tokens_app. apply elem_of_app. left. eauto.
Qed.

Lemma get_cached_effect self agent_name time cached self1 l :
  _get_cached_token self agent_name time = (cached, self1) ->
  cache_issued self l ->
  cache_issued self1 l /\ forall tok, cached = Some tok -> tok ∈ issued_tokens l.
Proof.
  unfold _get_cached_token. intros E Hc.
  destruct (_token_cache self !! agent_name) as [e |] eqn:He.
  - destruct (time <? expiry e); simplify_eq.
    + split; [done |]. intros tok [= <-]. eauto.
    + split; [| done]. intros n e' Hl. simpl in Hl.
      apply lookup_delete_Some in Hl as [_ Hl]. eauto.
  - simplify_eq. by split.
Qed.

Lemma perform_exchange_effect environ self master agent_name cid scope w r self' w' :
  perform_exchange environ self master agent_name cid scope w = (r, self', w') ->
  cache_issued self (log w) ->
  exists added,
    log w' = log w ++ added /\ Forall is_form added
    /\ cache_issued self' (log w')
    /\ forall tok, r = Ok tok -> tok ∈ issued_tokens (log w').
Proof.
  intros E Hc.
  destruct (perform_exchange_traffic environ self master agent_name cid scope w)
    as (added & Hlog & Hall).
  rewrite E in Hlog. simpl in Hlog.
  exists added. split; [exact Hlog |]. split; [by eapply traffic_is_form |].
  destruct r as [tok | e].
  - destruct (perform_exchange_ok _ _ _ _ _ _ _ _ _ _ E)
      as (secret & a & x & d2 & n & actor & w1 & _ & _ & _ & _ & P2 & Sx & Jx & Ax & _ & ->).
    assert (tok ∈ issued_tokens (log w')) as Hin.
    { apply post_log in P2. rewrite P2, issued_tokens_app. apply elem_of_app. right.
      unfold issued_tokens. cbn [omap list_omap answer_of].
      rewrite (exchange_request_issues self master cid secret scope x d2 tok Sx Jx Ax).
      by left. }
    split; [| by intros ? [= <-]].
    intros n' e'. unfold store. simpl. intros Hl.
    apply lookup_insert_Some in Hl as [[_ <-] | [_ Hl]]; [done |].
    rewrite Hlog. eapply cache_issued_mono; eauto.
  - apply perform_exchange_raise in E as ->.
    split; [| done]. rewrite Hlog. by apply cache_issued_mono.
Qed.

Lemma exchange_effect environ self master agent_name cid scope w r self' w' :
  exchange_token_for_agent environ self master agent_name cid scope w = (r, self', w') ->
  cache_issued self (log w) ->
  exists added,
    log w' = log w ++ added /\ Forall is_form added
    /\ cache_issued self' (log w')
    /\ forall tok, r = Ok tok -> tok ∈ issued_tokens (log w').
Proof.
  unfold exchange_token_for_agent. intros E Hc.
  destruct (_get_cached_token self agent_name (now w)) as [cached self1] eqn:Ec.
  destruct (get_cached_effect _ _ _ _ _ _ Ec Hc) as [Hc1 Hcached].
  destruct cached as [c |]; [destruct (truthy c) |].
  - simplify_eq. exists []. rewrite app_nil_r. repeat split; [constructor | done |].
    intros tok [= <-]. eauto.
  - eapply perform_exchange_effect; eauto.
  - eapply perform_exchange_effect; eauto.
Qed.

Lemma get_delegated_token_effect environ g agent_name w r g' w' :
  get_delegated_token environ g agent_name w = (r, g', w') ->
  tokens_issued g (log w) ->
  exists added,
    log w' = log w ++ added /\ Forall is_form added
    /\ tokens_issued g' (log w')
    /\ forall tok, r = inr tok -> tok ∈ issued_tokens (log w').
Proof.
  unfold get_delegated_token. intros E [Hd Hx].
  destruct (DELEGATED_TOKENS g !! agent_name) as [t |] eqn:Ed.
  { simplify_eq. exists []. rewrite app_nil_r.
    repeat split; [constructor | done | done |]. intros tok [= <-]. eauto. }
  destruct (TOKEN_EXCHANGER g) as [exchanger |] eqn:Ex, (MASTER_TOKEN g) as [master |],
    (AGENT_CONFIGS g !! agent_name) as [config |];
    try (simplify_eq; exists []; rewrite app_nil_r;
         repeat split; [constructor | done | by rewrite Ex | done]).
  destruct (truthy master);
    [| simplify_eq; exists []; rewrite app_nil_r;
       repeat split; [constructor | done | by rewrite Ex | done]].
  destruct (exchange_token_for_agent environ exchanger master agent_name
              (app_id config) (required_scope config) w) as [[r0 exchanger'] w0] eqn:Ee.
  destruct (exchange_effect _ _ _ _ _ _ _ _ _ _ Ee (Hx _ eq_refl))
    as (added & Hlog & Hform & Hc' & Hr).
  exists added.
  destruct r0 as [tok | e]; simplify_eq; (split; [exact Hlog |]; split; [exact Hform |]).
  - split; [split |].
    + intros n t. simpl. intros Hl.
      apply lookup_insert_Some in Hl as [[_ <-] | [_ Hl]]; [by apply Hr |].
      rewrite Hlog, issued_tokens_app. apply elem_of_app. left. eauto.
    + simpl. by intros ? [= <-].
    + intros ? [= <-]. by apply Hr.
  - split; [split |]; [| simpl; by intros ? [= <-] | done].
    intros n t. simpl. intros Hl.
    rewrite Hlog, issued_tokens_app. apply elem_of_app. left. eauto.
Qed.

Lemma talk_to_agent_invariant environ g agent_name content w o g' w' :
  run_invariant g w ->
  talk_to_agent environ g agent_name content w = (o, g', w') ->
  run_invariant g' w'.
Proof.
  intros [Ht Hd]. unfold talk_to_agent. intros E.
  destruct (KNOWN_AGENTS g !! agent_name) as [agent_url |]; [| by simplify_eq].
  destruct (get_delegated_token environ g agent_name w) as [[r g1] w1] eqn:Eg.
  destruct (get_delegated_token_effect _ _ _ _ _ _ _ Eg Ht)
    as (added & Hlog & Hform & Ht1 & Hr).
  destruct r as [early | agent_token].
  - simplify_eq. split; [exact Ht1 |].
    rewrite Hlog, issued_tokens_app, delegated_only_app. intros Hne.
    rewrite Hd by (intros ?; apply Hne, elem_of_app; by left).
    by rewrite delegated_only_forms.
  - specialize (Hr _ eq_refl).
    destruct (post (message agent_url content
                      (if truthy agent_token then Bearer agent_token else NoAuth)) w1)
      as [r2 w2] eqn:Ep.
    apply post_log in Ep.
    assert (issued_tokens (log w2) = issued_tokens (log w1)) as Hsame.
    { rewrite Ep, issued_tokens_app. unfold issued_tokens at 2. simpl.
      destruct (answer_of r2); by rewrite app_nil_r. }
    assert (run_invariant g1 w2) as Hinv.
    { split.
      - destruct Ht1 as [H1 H2]. split.
        + intros n t Hl. rewrite Hsame. eauto.
        + intros x Hx n e He. rewrite Hsame. eapply H2; eauto.
      - rewrite Hsame. intros Hne.
        rewrite Ep, delegated_only_app, Hlog, delegated_only_app.
        rewrite Hd by (intros ?; apply Hne; rewrite Hlog, issued_tokens_app;
                       apply elem_of_app; by left).
        rewrite delegated_only_forms by done. simpl.
        rewrite truthy_nonempty by (intros ->; by apply Hne). simpl.
        rewrite <- Hlog. rewrite bool_decide_eq_true_2 by done. reflexivity. }
    destruct r2; by simplify_eq.
Qed.

Lemma reachable_invariant g0 w0 g w :
  start_state g0 w0 -> reachable g0 w0 g w -> run_invariant g w.
Proof.
  intros (Hd & Hx & Hl). induction 1 as [| environ g w n c o g' w' _ IH E | g w t a _ IH].
  - repeat split; [| | done].
    + intros n t. rewrite Hd. by rewrite lookup_empty.
    + intros x Ex n e. rewrite (Hx _ Ex). by rewrite lookup_empty.
  - eapply talk_to_agent_invariant; eauto.
  - exact IH.
Qed.

Lemma delegated_or_bare_app issued l l' :
  delegated_or_bare issued (l ++ l')
  = (delegated_or_bare issued l && delegated_or_bare (issued ++ issued_tokens l) l')%bool.
Proof.
  revert issued. induction l as [| entry l IH]; intros issued; simpl.
  - by rewrite app_nil_r.
  - destruct (data entry.1) as [fields | text] eqn:Ed.
    + rewrite IH. unfold issued_tokens. simpl.
      destruct (exchanged entry) as [t |]; simpl.
      * by rewrite <- app_assoc.
      * by rewrite app_nil_r.
    + unfold issued_tokens. simpl. rewrite (exchanged_message _ _ Ed).
      destruct (authz entry.1); try reflexivity; rewrite IH; by rewrite andb_assoc.
Qed.

Lemma delegated_or_bare_forms issued l :
  Forall is_form l -> delegated_or_bare issued l = true.
Proof.
  intros H. revert issued.
  induction H as [| entry l [fields Hf] _ IH]; intros issued; simpl; [done |].
  rewrite Hf. apply IH.
Qed.

(** A log that [delegated_only] admits has no unauthenticated message. *)
Lemma delegated_only_or_bare issued l :
  delegated_only issued l = true -> delegated_or_bare issued l = true.
Proof.
  revert issued. induction l as [| entry l IH]; intros issued; simpl; [done |].
  destruct (data entry.1); [apply IH |].
  destruct (authz entry.1); try done.
  intros H. apply andb_prop in H as [-> H]. by apply IH.
Qed.

(** What [delegated_or_bare] says of one message of the log. *)
Lemma delegated_or_bare_message issued l entry text :
  delegated_or_bare issued l = true ->
  entry ∈ l -> data entry.1 = Message text ->
  (exists t, authz entry.1 = Bearer t /\ t ∈ issued ++ issued_tokens l)
  \/ (authz entry.1 = NoAuth /\ "" ∈ issued ++ issued_tokens l).
Proof.
  revert issued. induction l as [| x l IH]; intros issued Hd Hin Hm.
  - by apply elem_of_nil in Hin.
  - simpl in Hd. unfold issued_tokens. simpl. fold (issued_tokens l).
    apply elem_of_cons in Hin as [<- | Hin].
    + rewrite Hm in Hd. destruct (authz entry.1) as [| cid secret | t]; [| done |].
      * apply andb_prop in Hd as [Hd _]. apply bool_decide_eq_true in Hd.
        right. split; [done |]. apply elem_of_app. by left.
      * apply andb_prop in Hd as [Hd _]. apply bool_decide_eq_true in Hd.
        left. exists t. split; [done |]. apply elem_of_app. by left.
    + destruct (data x.1) as [fields | text'] eqn:Ed.
      * specialize (IH _ Hd Hin Hm).
        destruct (exchanged x) as [t' |]; simpl in *.
        -- by rewrite <- app_assoc in IH.
        -- by rewrite app_nil_r in IH.
      * rewrite (exchanged_message _ _ Ed). simpl.
        destruct (authz x.1); try discriminate;
          apply andb_prop in Hd as [_ Hd]; apply (IH _ Hd Hin Hm).
Qed.

Lemma talk_to_agent_outbound environ g agent_name content w o g' w' :
  outbound_invariant g w ->
  talk_to_agent environ g agent_name content w = (o, g', w') ->
  outbound_invariant g' w'.
Proof.
  intros [Ht Hd]. unfold talk_to_agent. intros E.
  destruct (KNOWN_AGENTS g !! agent_name) as [agent_url |]; [| by simplify_eq].
  destruct (get_delegated_token environ g agent_name w) as [[r g1] w1] eqn:Eg.
  destruct (get_delegated_token_effect _ _ _ _ _ _ _ Eg Ht)
    as (added & Hlog & Hform & Ht1 & Hr).
  assert (delegated_or_bare [] (log w1) = true) as Hd1.
  { rewrite Hlog, delegated_or_bare_app, Hd. by rewrite delegated_or_bare_forms. }
  destruct r as [early | agent_token].
  - simplify_eq. by split.
  - specialize (Hr _ eq_refl).
    destruct (post (message agent_url content
                      (if truthy agent_token then Bearer agent_token else NoAuth)) w1)
      as [r2 w2] eqn:Ep.
    apply post_log in Ep.
    assert (issued_tokens (log w2) = issued_tokens (log w1)) as Hsame.
    { rewrite Ep, issued_tokens_app. unfold issued_tokens at 2. simpl.
      destruct (answer_of r2); by rewrite app_nil_r. }
    assert (outbound_invariant g1 w2) as Hinv.
    { split.
      - destruct Ht1 as [H1 H2]. split.
        + intros n t Hl. rewrite Hsame. eauto.
        + intros x Hx n e He. rewrite Hsame. eapply H2; eauto.
      - rewrite Ep, delegated_or_bare_app, Hd1. simpl.
        destruct (truthy agent_token) eqn:Htr; simpl.
        + by rewrite bool_decide_eq_true_2.
        + assert (agent_token = "") as ->
            by (destruct agent_token; [reflexivity | discriminate Htr]).
          by rewrite bool_decide_eq_true_2. }
    destruct r2; by simplify_eq.
Qed.

Lemma reachable_outbound g0 w0 g w :
  start_state g0 w0 -> reachable g0 w0 g w -> outbound_invariant g w.
Proof.
  intros (Hd & Hx & Hl). induction 1 as [| environ g w n c o g' w' _ IH E | g w t a _ IH].
  - split; [split |].
    + intros n t. rewrite Hd. by rewrite lookup_empty.
    + intros x Ex n e. rewrite (Hx _ Ex). by rewrite lookup_empty.
    + by apply delegated_only_or_bare.
  - eapply talk_to_agent_outbound; eauto.
  - exact IH.
Qed.

(** C2, as amended: in every state the orchestrator reaches (the identity
    provider handing out strings as tokens), each A2A message in the log
    either carries [Authorization: Bearer t] for a token [t] that a token
    exchange handed out before the message was sent, or carries no
    Authorization header at all, and that only after an exchange handed out
    the empty token.  If no exchange ever did, every message carries a
    delegated token.  In both cases a message carries the master token only
    if an exchange itself handed that very string out: the master token is
    never forwarded directly. *)
Theorem C2_outbound_calls_carry_delegated_tokens g0 w0 g w :
  start_state g0 w0 ->
  reachable g0 w0 g w ->
  string_tokens (log w) ->
  delegated_or_bare [] (log w) = true
  /\ (forall entry text,
        entry ∈ log w -> data entry.1 = Message text ->
        (exists t, authz entry.1 = Bearer t /\ t ∈ issued_tokens (log w))
        \/ (authz entry.1 = NoAuth /\ "" ∈ issued_tokens (log w)))
  /\ ("" ∉ issued_tokens (log w) -> delegated_only [] (log w) = true)
  /\ forall master entry text,
       MASTER_TOKEN g = Some master ->
       master ∉ issued_tokens (log w) ->
       entry ∈ log w -> data entry.1 = Message text ->
       authz entry.1 <> Bearer master.
Proof.
  intros Hs Hr _.
  destruct (reachable_outbound _ _ _ _ Hs Hr) as [_ Hb].
  destruct (reachable_invariant _ _ _ _ Hs Hr) as [_ Hd].
  split; [exact Hb |]. split; [| split; [exact Hd |]].
  - intros entry text Hin Hm. apply (delegated_or_bare_message [] _ _ _ Hb Hin Hm).
  - intros master entry text _ Hm Hin Hmsg Hbm.
    destruct (delegated_or_bare_message [] _ _ _ Hb Hin Hmsg) as [(t & Ht & Hi) | [Hn _]].
    + rewrite Hbm in Ht. simplify_eq. by apply Hm.
    + rewrite Hbm in Hn. discriminate Hn.
Qed.

(** X2: once a name is in [DELEGATED_TOKENS], [talk_to_agent] sends the
    stored token whatever the time is, without consulting the exchanger. *)
Theorem talk_to_agent_uses_stored_token environ g agent_name content w agent_url tok :
  KNOWN_AGENTS g !! agent_name = Some agent_url ->
  DELEGATED_TOKENS g !! agent_name = Some tok ->
  truthy tok = true ->
  exists answer,
    (talk_to_agent environ g agent_name content w).1.2 = g
    /\ log (talk_to_agent environ g agent_name content w).2
       = log w ++ [(message agent_url content (Bearer tok), answer)].
Proof.
  intros Hk Hd Ht. unfold talk_to_agent, get_delegated_token.
  rewrite Hk, Hd, Ht.
  destruct (post (message agent_url content (Bearer tok)) w) as [r w'] eqn:Ep.
  exists (answer_of r). apply post_log in Ep. destruct r; by simpl.
Qed.

(** X3: the fallback: a stored empty token makes [talk_to_agent] use the
    client without an Authorization header. *)
Theorem talk_to_agent_empty_token_unauthenticated environ g agent_name content w agent_url :
  KNOWN_AGENTS g !! agent_name = Some agent_url ->
  DELEGATED_TOKENS g !! agent_name = Some "" ->
  exists answer,
    log (talk_to_agent environ g agent_name content w).2
    = log w ++ [(message agent_url content NoAuth, answer)].
Proof.
  intros Hk Hd. unfold talk_to_agent, get_delegated_token.
  rewrite Hk, Hd. simpl.
  destruct (post (message agent_url content NoAuth) w) as [r w'] eqn:Ep.
  exists (answer_of r). apply post_log in Ep. destruct r; by simpl.
Qed.

End OutboundCalls.

Section DelegationExamples.
Import TokenExchange Orchestrator Sample.


Lemma C2_witness :
  delegated_only []
    (log (talk_to_agent environ1 g0 vax "What vaccines do dogs need?" w0).2) = true.
Proof.
  destruct (talk_to_agent environ1 g0 vax "What vaccines do dogs need?" w0)
    as [[o g1] w1] eqn:E.
  assert (log w1
          = [(actor_token_request exchanger0 "VAX1" "s3cret", Some actor_ok);
             (exchange_request exchanger0 "MASTER" "VAX1" "s3cret" "vaccination:read",
              Some exchange_ok);
             (message "http://localhost:10005" "What vaccines do dogs need?"
                (Bearer "D1"), Some reply)]) as Hlog.
  { replace w1 with (talk_to_agent environ1 g0 vax "What vaccines do dogs need?" w0).2
      by (by rewrite E).
    vm_compute. reflexivity. }
  refine (proj1 (proj2 (proj2
            (C2_outbound_calls_carry_delegated_tokens g0 w0 g1 w1 _ _ _))) _).
  - split; [reflexivity | split; [intros x [= <-]; reflexivity | reflexivity]].
  - eapply reach_call; [apply reach_start | exact E].
  - rewrite Hlog. repeat constructor; intros r d tokens [= <-] [= <-]; discriminate.
  - rewrite Hlog. vm_compute. intros H. apply list_elem_of_singleton in H. discriminate.
Defined.

(** C2 as stated fails when the identity provider answers the exchange
    with an empty access token: the token is stored, and the message goes
    out through the client that has no Authorization header. *)
Lemma C2_counterexample :
  exists g w,
    start_state g0 Scenarios.w_empty_token
    /\ reachable g0 Scenarios.w_empty_token g w
    /\ string_tokens (log w)
    /\ (message "http://localhost:10005" "What vaccines do dogs need?" NoAuth,
        Some reply) ∈ log w.
Proof.
  destruct (talk_to_agent environ1 g0 vax "What vaccines do dogs need?"
              Scenarios.w_empty_token) as [[o g1] w1] eqn:E.
  assert (log w1
          = [(actor_token_request exchanger0 "VAX1" "s3cret", Some actor_ok);
             (exchange_request exchanger0 "MASTER" "VAX1" "s3cret" "vaccination:read",
              Some Scenarios.exchange_empty);
             (message "http://localhost:10005" "What vaccines do dogs need?" NoAuth,
              Some reply)]) as Hlog.
  { replace w1 with (talk_to_agent environ1 g0 vax "What vaccines do dogs need?"
                       Scenarios.w_empty_token).2 by (by rewrite E).
    vm_compute. reflexivity. }
  exists g1, w1. split; [| split; [| split]].
  - split; [reflexivity | split; [intros x [= <-]; reflexivity | reflexivity]].
  - eapply reach_call; [apply reach_start | exact E].
  - rewrite Hlog. repeat constructor; intros r d tokens [= <-] [= <-]; discriminate.
  - rewrite Hlog. do 2 apply list_elem_of_further. apply list_elem_of_here.
Qed.

Lemma C3_witness :
  Forall (fun entry : request * option response =>
            field entry.1 "actor_token" = None
            /\ field entry.1 "actor_token_type" = None)
    (log (perform_exchange environ1 exchanger0 "MASTER" vax "VAX1"
            "vaccination:read" w0).2).
Proof.
  destruct (C3_actor_token_minted_but_not_presented environ1 exchanger0 "MASTER" vax
              "VAX1" "vaccination:read" w0) as (added & Hlog & Hall & _).
  rewrite Hlog. exact Hall.
Defined.

(** C3 at a concrete exchange: the IdP hands out the actor token ["ACTOR"],
    the exchange succeeds with ["D1"], and neither an [actor_token] field
    nor the string ["ACTOR"] is part of the token-exchange request. *)
Lemma C3_actor_token_dropped :
  let run := perform_exchange environ1 exchanger0 "MASTER" vax "VAX1"
               "vaccination:read" w0 in
  run.1.1 = Ok "D1"
  /\ log run.2
     = [(actor_token_request exchanger0 "VAX1" "s3cret", Some actor_ok);
        (exchange_request exchanger0 "MASTER" "VAX1" "s3cret" "vaccination:read",
         Some exchange_ok)]
  /\ json_of actor_ok ≫= access_token = Ok "ACTOR"
  /\ exchange_data exchanger0 "MASTER" "vaccination:read"
     = [("grant_type", JStr "urn:ietf:params:oauth:grant-type:token-exchange");
        ("subject_token", JStr "MASTER");
        ("subject_token_type", JStr "urn:ietf:params:oauth:token-type:jwt");
        ("requested_token_type", JStr "urn:ietf:params:oauth:token-type:access_token");
        ("scope", JStr "vaccination:read")].
Proof. repeat split; vm_compute; reflexivity. Qed.

(** C6 at a concrete run: the first call, at time 1000, exchanges the
    master token for ["D1"], which the exchanger records as expiring at
    4540. At time 10000 the exchanger's own lookup finds nothing live, yet
    the second call sends ["D1"] again, taken from [DELEGATED_TOKENS], and
    asks the IdP for nothing. *)
Lemma C6_expired_token_still_sent :
  let first := talk_to_agent environ1 g0 vax "What vaccines do dogs need?" w0 in
  let g1 := first.1.2 in
  let later := Net.World 10000 [(0, reply)] (log first.2) in
  let second := talk_to_agent environ1 g1 vax "And cats?" later in
  (exists exchanger,
     TOKEN_EXCHANGER g1 = Some exchanger
     /\ _token_cache exchanger !! vax = Some (Entry "D1" 4540)
     /\ (_get_cached_token exchanger vax 10000).1 = None)
  /\ DELEGATED_TOKENS g1 !! vax = Some "D1"
  /\ log second.2
     = log first.2
       ++ [(message "http://localhost:10005" "And cats?" (Bearer "D1"), Some reply)].
Proof.
  cbv zeta. split; [| split; vm_compute; reflexivity].
  eexists. split; [vm_compute; reflexivity |]. split; vm_compute; reflexivity.
Qed.

End DelegationExamples.

(** * Properties of the interactive credential acquirers *)

Section DeviceFlow.
Import UserAuth.
#[local] Arguments post : simpl never.
#[local] Arguments poll_request : simpl never.

(** The request of one round is [post]. *)
Lemma poll_round_is_post self device_code answers time sent :
  post (poll_request self device_code) (World time answers sent)
  = match answers with
    | [] => (Raise TransportError,
             World time [] (sent ++ [(poll_request self device_code, None)]))
    | (d, response) :: rest =>
        (Ok response,
         World (time + Z.max 0 d) rest
               (sent ++ [(poll_request self device_code, Some response)]))
    end.
Proof. destruct answers as [| [d response] rest]; reflexivity. Qed.

(** One round of the loop on [authorization_pending]: one request, one
    sleep of [interval] seconds, and the loop goes on with the remaining
    answers. *)
Lemma poll_loop_pending self device_code timeout start_time d p rest interval time sent :
  time - start_time <= timeout -> pending p ->
  poll_loop self device_code timeout start_time ((d, p) :: rest) (JNum interval) time sent
  = poll_loop self device_code timeout start_time rest (JNum interval)
      (time + Z.max 0 d + Z.max 0 interval)
      (sent ++ [(poll_request self device_code, Some p)]).
Proof.
  intros Hle (Hs & e & Hj & He). cbn [poll_loop].
  destruct (Z.ltb_spec timeout (time - start_time)); [lia |].
  destruct (Z.eqb_spec (status_code p) 200); [done |].
  unfold json_of. rewrite Hj. cbn zeta. rewrite He.
  rewrite bool_decide_eq_true_2 by done. reflexivity.
Qed.

(** The round that receives the success response returns its JSON body. *)
Lemma poll_loop_success self device_code timeout start_time d ok token_data rest
    interval time sent :
  time - start_time <= timeout ->
  status_code ok = 200 -> json ok = Some token_data ->
  poll_loop self device_code timeout start_time ((d, ok) :: rest) interval time sent
  = (Ok token_data,
     World (time + Z.max 0 d) rest (sent ++ [(poll_request self device_code, Some ok)])).
Proof.
  intros Hle Hs Hj. cbn [poll_loop].
  destruct (Z.ltb_spec timeout (time - start_time)); [lia |].
  rewrite Hs. simpl. unfold json_of. by rewrite Hj.
Qed.

(** C8: when the token endpoint answers [authorization_pending] three
    times and then succeeds (and the three waits fit within the timeout),
    [poll_for_token] returns the body of the fourth answer, having sent
    exactly four poll requests and consumed exactly those four answers. *)
Theorem C8_three_pending_then_success self device_code interval timeout w
    d1 p1 d2 p2 d3 p3 d4 ok token_data rest :
  script w = (d1, p1) :: (d2, p2) :: (d3, p3) :: (d4, ok) :: rest ->
  pending p1 -> pending p2 -> pending p3 ->
  status_code ok = 200 -> json ok = Some token_data ->
  Z.max 0 d1 + Z.max 0 d2 + Z.max 0 d3 + 3 * Z.max 0 interval <= timeout ->
  exists time,
    poll_for_token self device_code (JNum interval) timeout w
    = (Ok token_data,
       World time rest
         (log w ++ [(poll_request self device_code, Some p1);
                    (poll_request self device_code, Some p2);
                    (poll_request self device_code, Some p3);
                    (poll_request self device_code, Some ok)])).
Proof.
  intros Hscript H1 H2 H3 Hs Hj Ht. unfold poll_for_token. rewrite Hscript.
  rewrite poll_loop_pending by (done || lia).
  rewrite poll_loop_pending by (done || lia).
  rewrite poll_loop_pending by (done || lia).
  rewrite (poll_loop_success _ _ _ _ _ _ token_data) by (done || lia).
  eexists. by rewrite <- !app_assoc.
Qed.

End DeviceFlow.

Section MasterTokenReuse.
Import UserAuth.
#[local] Arguments post : simpl never.
#[local] Arguments poll_for_token : simpl never.
#[local] Arguments initiate_device_flow : simpl never.

Lemma get_cached_token_hit self time expiry :
  _token_expiry self = Some expiry ->
  truthy_val (_master_token self) = true ->
  expiry <> 0 -> time < expiry - 300 ->
  get_cached_token self time = Some (_master_token self).
Proof.
  intros He Ht Hz Hlt. unfold get_cached_token. rewrite He, Ht.
  destruct (Z.eqb_spec expiry 0); [done |].
  destruct (Z.ltb_spec time (expiry - 300)); [done | lia].
Qed.




(** The browser flow reads no cached token: whenever the callback brought
    a code, the call sends one authorization-code request to the token
    endpoint. *)
Lemma browser_flow_always_exchanges self code_verifier cb code w :
  BrowserAuth.opt_truthy (BrowserAuth.error cb) = false ->
  BrowserAuth.authorization_code cb = Some code ->
  truthy code = true ->
  exists answer,
    log (BrowserAuth.authenticate_user self code_verifier cb w).2
    = log w ++ [(BrowserAuth.code_exchange_request self code code_verifier, answer)].
Proof.
  intros He Hc Ht. unfold BrowserAuth.authenticate_user. rewrite He, Hc, Ht. simpl.
  destruct (post (BrowserAuth.code_exchange_request self code code_verifier) w)
    as [r w1] eqn:Ep.
  exists (answer_of r). apply post_log in Ep.
  destruct r as [response | e]; [| done].
  repeat case_match; done.
Qed.


End MasterTokenReuse.

Section LoginExamples.
Import Sample.

Lemma C8_witness :
  (UserAuth.poll_for_token user0 (JStr "dev-1") (JNum 5) 300
     (Net.World 1000 polling_answers [])).1
  = Ok {[ "access_token" := JStr "MASTER-1"; "expires_in" := JNum 3600 ]}.
Proof.
  edestruct (C8_three_pending_then_success user0 (JStr "dev-1") 5 300
               (Net.World 1000 polling_answers [])) as [time E];
    [reflexivity
    | split; [discriminate | by eexists] ..
    | reflexivity | reflexivity | simpl; lia
    | rewrite E; reflexivity].
Defined.



End LoginExamples.

(** * Further properties *)

Section FurtherProperties.
Import Middleware TokenExchange Orchestrator Sample.

Lemma cached_token_not_stale_example :
  exists e,
    _token_cache (store exchanger0 vax "D1" 1000 3600) !! vax = Some e
    /\ token e = "D1" /\ 2000 < expiry e.
Proof.
  destruct (get_cached_token_not_stale (store exchanger0 vax "D1" 1000 3600) vax 2000
              "D1" (store exchanger0 vax "D1" 1000 3600))
    as (e & He & Ht & Hlt & _); [vm_compute; reflexivity |].
  exists e. repeat split; assumption.
Defined.

Lemma stored_token_example :
  exists answer,
    (talk_to_agent ∅ (g_stored "D1") vax "And cats?" (Net.World 10000 [] [])).1.2
    = g_stored "D1"
    /\ log (talk_to_agent ∅ (g_stored "D1") vax "And cats?" (Net.World 10000 [] [])).2
       = [] ++ [(message "http://localhost:10005" "And cats?" (Bearer "D1"), answer)].
Proof.
  apply (talk_to_agent_uses_stored_token ∅ (g_stored "D1") vax "And cats?"
           (Net.World 10000 [] []) "http://localhost:10005" "D1");
    vm_compute; reflexivity.
Defined.

Lemma empty_token_example :
  exists answer,
    log (talk_to_agent ∅ (g_stored "") vax "And cats?" (Net.World 10000 [] [])).2
    = [] ++ [(message "http://localhost:10005" "And cats?" NoAuth, answer)].
Proof.
  apply (talk_to_agent_empty_token_unauthenticated ∅ (g_stored "") vax "And cats?"
           (Net.World 10000 [] []) "http://localhost:10005");
    vm_compute; reflexivity.
Defined.

(** X5: an exchange for one agent, whatever its outcome, leaves the cached
    tokens of every other agent as they were. *)
Theorem exchange_leaves_other_agents environ self master agent_name cid scope w other :
  other <> agent_name ->
  _token_cache (exchange_token_for_agent environ self master agent_name cid scope w).1.2
    !! other
  = _token_cache self !! other.
Proof.
  intros Hne. unfold exchange_token_for_agent, _get_cached_token.
  assert (forall self0 : TokenExchanger,
            _token_cache
              (perform_exchange environ self0 master agent_name cid scope w).1.2 !! other
            = _token_cache self0 !! other) as Hp.
  { intros self0.
    destruct (perform_exchange environ self0 master agent_name cid scope w)
      as [[r self'] w'] eqn:E.
    destruct r as [tok | e]; simpl.
    - destruct (perform_exchange_ok _ _ _ _ _ _ _ _ _ _ E)
        as (? & ? & ? & ? & ? & ? & ? & _ & _ & _ & _ & _ & _ & _ & _ & _ & ->).
      unfold store. simpl. by rewrite lookup_insert_ne.
    - by rewrite (perform_exchange_raise _ _ _ _ _ _ _ _ _ _ E). }
  destruct (_token_cache self !! agent_name) as [e |] eqn:He; [| apply Hp].
  destruct (Net.now w <? expiry e).
  - destruct (truthy (token e)); [reflexivity | apply Hp].
  - rewrite Hp. simpl. by rewrite lookup_delete_ne.
Qed.

Lemma other_agents_example :
  _token_cache
    (exchange_token_for_agent ∅ (store exchanger0 "Pet Clinic Scheduler" "D2" 1000 3600)
       "MASTER" vax "VAX1" "vaccination:read" (Net.World 1000 [] [])).1.2
    !! "Pet Clinic Scheduler"
  = Some (Entry "D2" 4540).
Proof.
  rewrite (exchange_leaves_other_agents ∅
             (store exchanger0 "Pet Clinic Scheduler" "D2" 1000 3600)
             "MASTER" vax "VAX1" "vaccination:read" (Net.World 1000 [] [])
             "Pet Clinic Scheduler") by discriminate.
  reflexivity.
Defined.

End FurtherProperties.

Section PollingOutcomes.
Import UserAuth Sample.

(** X7: once more than [timeout] seconds have passed since polling began,
    the loop raises [TimeoutError] without sending anything. *)
Theorem poll_loop_times_out self device_code timeout start_time answers interval time
    sent :
  timeout < time - start_time ->
  poll_loop self device_code timeout start_time answers interval time sent
  = (Raise TimeoutError, World time answers sent).
Proof.
  intros Hlt. destruct answers as [| [d r] rest]; cbn [poll_loop];
    destruct (Z.ltb_spec timeout (time - start_time)); done || lia.
Qed.

Lemma poll_timeout_example :
  poll_for_token user0 (JStr "dev-1") (JNum 200) 300
    (Net.World 1000 polling_answers [])
  = (Raise TimeoutError,
     Net.World 1400 [(0, pending_answer); (0, login_ok "MASTER-1")]
       [(poll_request user0 (JStr "dev-1"), Some pending_answer);
        (poll_request user0 (JStr "dev-1"), Some pending_answer)]).
Proof.
  unfold poll_for_token, polling_answers. cbn [script now log].
  rewrite !poll_loop_pending by (lia || (split; [discriminate | by eexists])).
  apply poll_loop_times_out. lia.
Defined.

(** X8: on [slow_down] the interval grows by five seconds before the
    sleep, and the loop goes on. *)
Theorem poll_loop_slow_down self device_code timeout start_time d r rest interval time
    sent e :
  time - start_time <= timeout ->
  status_code r <> 200 -> json r = Some e -> get e "error" = JStr "slow_down" ->
  poll_loop self device_code timeout start_time ((d, r) :: rest) (JNum interval) time sent
  = poll_loop self device_code timeout start_time rest (JNum (interval + 5))
      (time + Z.max 0 d + Z.max 0 (interval + 5))
      (sent ++ [(poll_request self device_code, Some r)]).
Proof.
  intros Hle Hs Hj He. cbn [poll_loop].
  destruct (Z.ltb_spec timeout (time - start_time)); [lia |].
  destruct (Z.eqb_spec (status_code r) 200); [done |].
  unfold json_of. rewrite Hj. cbn zeta. rewrite He. reflexivity.
Qed.

Lemma slow_down_example :
  (poll_for_token user0 (JStr "dev-1") (JNum 5) 300
     (Net.World 1000 [(0, slow_down_answer); (0, login_ok "MASTER-1")] [])).2
  = Net.World 1010 []
      [(poll_request user0 (JStr "dev-1"), Some slow_down_answer);
       (poll_request user0 (JStr "dev-1"), Some (login_ok "MASTER-1"))].
Proof.
  unfold poll_for_token. cbn [script now log].
  rewrite (poll_loop_slow_down user0 (JStr "dev-1") 300 1000 0 slow_down_answer
             [(0, login_ok "MASTER-1")] 5 1000 []
             {[ "error" := JStr "slow_down" ]})
    by (lia || discriminate || reflexivity).
  reflexivity.
Defined.

(** X9: [expired_token] and [access_denied] end the polling with an
    exception, after the one request that was answered so. *)
Theorem poll_loop_aborts self device_code timeout start_time d r rest interval time
    sent e :
  time - start_time <= timeout ->
  status_code r <> 200 -> json r = Some e ->
  get e "error" = JStr "expired_token" \/ get e "error" = JStr "access_denied" ->
  poll_loop self device_code timeout start_time ((d, r) :: rest) interval time sent
  = (Raise (Exception "Authentication failed"),
     World (time + Z.max 0 d) rest (sent ++ [(poll_request self device_code, Some r)])).
Proof.
  intros Hle Hs Hj He. cbn [poll_loop].
  destruct (Z.ltb_spec timeout (time - start_time)); [lia |].
  destruct (Z.eqb_spec (status_code r) 200); [done |].
  unfold json_of. rewrite Hj. cbn zeta.
  destruct He as [-> | ->]; reflexivity.
Qed.

Lemma access_denied_example :
  (poll_for_token user0 (JStr "dev-1") (JNum 5) 300
     (Net.World 1000 [(0, denied_answer); (0, login_ok "MASTER-1")] [])).1
  = Raise (Exception "Authentication failed").
Proof.
  unfold poll_for_token. cbn [script now log].
  rewrite (poll_loop_aborts user0 (JStr "dev-1") 300 1000 0 denied_answer
             [(0, login_ok "MASTER-1")] (JNum 5) 1000 []
             {[ "error" := JStr "access_denied" ]})
    by (lia || discriminate || reflexivity || (right; reflexivity)).
  reflexivity.
Defined.

End PollingOutcomes.

(** * The verifier at its edges *)

Section VerifierEdges.
Import Middleware Cases.
Context `{J : Jose}.

(** Without a cache, or with one that has reached its duration,
    [_get_jwks] asks the endpoint. *)
Lemma get_jwks_refetch self w :
  (forall c t, _jwks_cache self = Some c -> _jwks_cache_time self = Some t ->
               _jwks_cache_duration self <= now w - t) ->
  _get_jwks self w =
    match requests_get w with
    | (FetchOk doc, w') => (Ok doc, set_jwks_cache self doc (now w), w')
    | (FetchFail, w') =>
        match _jwks_cache self with
        | Some c => if bool_decide (c = ∅) then (Raise TransportError, self, w')
                    else (Ok c, self, w')
        | None => (Raise TransportError, self, w')
        end
    end.
Proof.
  intros Hstale. unfold _get_jwks.
  destruct (_jwks_cache self) as [c |] eqn:Hc; [| reflexivity].
  destruct (_jwks_cache_time self) as [t |] eqn:Ht; [| reflexivity].
  specialize (Hstale c t eq_refl eq_refl).
  destruct (Z.ltb_spec (now w - t) (_jwks_cache_duration self)); [lia | reflexivity].
Qed.

Lemma requests_get_down w :
  endpoint_down w ->
  requests_get w = (FetchFail, World (now w) (tail (jwks_endpoint w)) (S (fetches w))).
Proof. unfold requests_get. intros [-> | [rest ->]]; reflexivity. Qed.

(** X10: while the JWKS endpoint is down, a verifier that holds a
    non-empty key set keeps using it, however old it is: [_get_jwks]
    returns the cached keys and leaves the cache and its time stamp as they
    were, so every later call asks the endpoint again. *)
Theorem jwks_outage_serves_cached_keys self w c :
  _jwks_cache self = Some c -> c <> ∅ -> endpoint_down w ->
  exists w', _get_jwks self w = (Ok c, self, w')
             /\ now w' = now w /\ (fetches w' <= S (fetches w))%nat.
Proof.
  intros Hc Hne Hdown. unfold _get_jwks. rewrite Hc, (requests_get_down _ Hdown).
  rewrite bool_decide_eq_false_2 by done.
  destruct (_jwks_cache_time self) as [t |].
  - destruct (now w - t <? _jwks_cache_duration self);
      eexists; (split; [reflexivity |]); simpl; split; (reflexivity || lia).
  - eexists; (split; [reflexivity |]); simpl; split; (reflexivity || lia).
Qed.

(** X11: with nothing cached and the JWKS endpoint down, every bearer
    token on a protected path, valid or not, is answered 500
    [server_error] (not 401), after one request to the endpoint; the
    verifier is unchanged. *)
Theorem jwks_outage_without_cache_is_500 self request w auth_header scheme token :
  enabled self = true ->
  _is_public_path self (path request) = false ->
  authorization request = Some auth_header ->
  split auth_header = [scheme; token] ->
  lower scheme = "bearer" ->
  _jwks_cache self = None -> endpoint_down w ->
  dispatch self request w =
    (JSONResponse 500 "server_error" (Text "Token validation failed due to server error"),
     self, World (now w) (tail (jwks_endpoint w)) (S (fetches w))).
Proof.
  intros He Hp Ha Hs Hl Hc Hdown.
  rewrite (dispatch_bearer _ _ _ _ _ _ He Hp Ha Hs Hl).
  unfold _validate_token, _get_jwks. rewrite Hc, (requests_get_down _ Hdown).
  reflexivity.
Qed.

(** X12: a fetch that succeeds stores the key set with the time of the
    call, and from then on, as long as less than the cache duration (24
    hours for every verifier [__init__] creates) has passed, [_get_jwks]
    returns that key set without asking the endpoint. *)
Theorem jwks_fetched_once_per_duration self w doc rest :
  (forall c t, _jwks_cache self = Some c -> _jwks_cache_time self = Some t ->
               _jwks_cache_duration self <= now w - t) ->
  jwks_endpoint w = FetchOk doc :: rest ->
  _get_jwks self w
  = (Ok doc, set_jwks_cache self doc (now w), World (now w) rest (S (fetches w)))
  /\ forall w2, now w2 - now w < _jwks_cache_duration self ->
       _get_jwks (set_jwks_cache self doc (now w)) w2
       = (Ok doc, set_jwks_cache self doc (now w), w2).
Proof.
  intros Hstale Hend. split.
  - rewrite (get_jwks_refetch _ _ Hstale). unfold requests_get. rewrite Hend. reflexivity.
  - intros w2 Hlt. by apply (get_jwks_fresh _ _ doc (now w)).
Qed.

(** X13: on a protected path of an enabled verifier, a request whose
    Authorization header is missing, empty, or anything but two words of
    which the first is [bearer] (in any letter case) is answered 401
    without the token machinery being touched: the verifier and the world
    are unchanged, so no request goes to the JWKS endpoint.  The error is
    [unauthorized] exactly when the header is missing or empty. *)
Theorem no_bearer_header_is_401 self request w :
  enabled self = true ->
  _is_public_path self (path request) = false ->
  (forall auth_header scheme token,
     authorization request = Some auth_header ->
     split auth_header = [scheme; token] -> lower scheme <> "bearer") ->
  exists err text,
    dispatch self request w = (JSONResponse 401 err (Text text), self, w)
    /\ (err = "unauthorized" \/ err = "invalid_request")
    /\ (err = "unauthorized" <->
        authorization request = None \/ authorization request = Some "").
Proof.
  intros He Hp Hb. unfold dispatch. rewrite He, Hp. simpl.
  destruct (authorization request) as [auth_header |] eqn:Ha.
  2:{ eexists _, _. split; [reflexivity |]. split; [by left |]. split; [by left | done]. }
  destruct auth_header as [| a rest].
  { eexists _, _. split; [reflexivity |]. split; [by left |]. split; [by right | done]. }
  cbn [truthy String.eqb negb].
  assert (("invalid_request" = "unauthorized" \/ "invalid_request" = "invalid_request")
          /\ ("invalid_request" = "unauthorized" <->
              Some (String a rest) = None \/ Some (String a rest) = Some "")) as Hinv.
  { split; [by right |]. split; [intros E; discriminate E |].
    intros [E | E]; discriminate E. }
  destruct (split (String a rest)) as [| scheme [| token [| extra more]]] eqn:Hs;
    try (eexists _, _; split; [reflexivity | exact Hinv]).
  specialize (Hb _ _ _ eq_refl Hs).
  destruct (String.eqb_spec (lower scheme) "bearer") as [E | _]; [done |].
  eexists _, _; split; [reflexivity | exact Hinv].
Qed.

(** X14: a token that selects a key and passes [jwt.decode] but whose
    [aud] claim is a JSON array is answered 401 by every verifier with a
    non-empty list of valid audiences, whatever the array holds, the
    verifier's own identifier included: membership is tested on the claim
    as a whole. *)
Theorem list_audience_is_rejected self request w auth_header scheme token
    jwks keys self1 w1 hdr rsa_key unverified payload l :
  enabled self = true ->
  _is_public_path self (path request) = false ->
  authorization request = Some auth_header ->
  split auth_header = [scheme; token] ->
  lower scheme = "bearer" ->
  _get_jwks self w = (Ok jwks, self1, w1) ->
  jwks !! "keys" = Some keys ->
  get_unverified_header token = Ok hdr ->
  find_key keys (get hdr "kid") = Ok (Some rsa_key) ->
  get_unverified_claims token = Ok unverified ->
  decode token rsa_key (issuer self1) (now w1) = Ok payload ->
  payload !! "aud" = Some (JList l) ->
  valid_audiences self <> [] ->
  dispatch self request w =
    (JSONResponse 401 "invalid_token"
       (ErrorText (ValidationFailed (InvalidAudience (valid_audiences self) (JList l)))),
     self1, w1).
Proof.
  intros He Hp Ha Hs Hl Hj Hk Hh Hf Hc Hd Haud Hne.
  destruct (get_jwks_config _ _ _ _ _ Hj) as (_ & Hva & _ & _).
  rewrite (dispatch_bearer _ _ _ _ _ _ He Hp Ha Hs Hl).
  rewrite (validate_token_unfold _ _ _ _ _ _ _ _ Hj Hh Hk).
  rewrite Hf. simpl. rewrite Hc. simpl. rewrite Hd. simpl.
  unfold get. rewrite Haud, Hva. simpl.
  rewrite bool_decide_eq_false_2 by done. reflexivity.
Qed.

(** X15: the key loop reads ['kid'] of every entry it passes: when the
    first entry of the key set has no ['kid'], every token with a readable
    header is answered 500 [server_error], also a token whose key is
    published further down the list. *)
Theorem jwks_entry_without_kid_is_500 self request w auth_header scheme token
    jwks key rest self1 w1 hdr :
  enabled self = true ->
  _is_public_path self (path request) = false ->
  authorization request = Some auth_header ->
  split auth_header = [scheme; token] ->
  lower scheme = "bearer" ->
  _get_jwks self w = (Ok jwks, self1, w1) ->
  jwks !! "keys" = Some (key :: rest) ->
  key !! "kid" = None ->
  get_unverified_header token = Ok hdr ->
  dispatch self request w =
    (JSONResponse 500 "server_error" (Text "Token validation failed due to server error"),
     self1, w1).
Proof.
  intros He Hp Ha Hs Hl Hj Hk Hkid Hh.
  rewrite (dispatch_bearer _ _ _ _ _ _ He Hp Ha Hs Hl).
  rewrite (validate_token_unfold _ _ _ _ _ _ _ _ Hj Hh Hk).
  simpl. unfold item. rewrite Hkid. reflexivity.
Qed.

Lemma get_jwks_required_scope self scope' w :
  _get_jwks (set_required_scope self scope') w
  = ((_get_jwks self w).1.1, set_required_scope (_get_jwks self w).1.2 scope',
     (_get_jwks self w).2).
Proof.
  unfold _get_jwks. simpl.
  destruct (_jwks_cache self) as [c |], (_jwks_cache_time self) as [t |];
    repeat case_match; reflexivity.
Qed.

(** X16: the verifier never checks scopes. [required_scope] is stored and
    never read: a verifier created with any other required scope gives the
    same answer to every request, asks the JWKS endpoint the same
    questions, and ends in the same state. *)
Theorem required_scope_is_never_checked self scope' request w :
  dispatch (set_required_scope self scope') request w
  = ((dispatch self request w).1.1,
     set_required_scope (dispatch self request w).1.2 scope',
     (dispatch self request w).2).
Proof.
  unfold dispatch. cbn [enabled set_required_scope].
  destruct (enabled self); [| reflexivity]. cbn [negb].
  change (_is_public_path (set_required_scope self scope') (path request))
    with (_is_public_path self (path request)).
  destruct (_is_public_path self (path request)); [reflexivity |].
  destruct (authorization request) as [auth_header |]; [| reflexivity].
  destruct (negb (truthy auth_header)); [reflexivity |].
  destruct (split auth_header) as [| scheme [| token [| extra more]]]; try reflexivity.
  destruct (negb (String.eqb (lower scheme) "bearer")); [reflexivity |].
  unfold _validate_token. rewrite get_jwks_required_scope.
  destruct (_get_jwks self w) as [[rj self1] w1]. cbn [fst snd].
  cbn [issuer valid_audiences set_required_scope].
  match goal with
  | |- context [rewrap ?r] => destruct (rewrap r) as [payload | []]; reflexivity
  end.
Qed.

(** X4: the allowlist is matched by prefix: a request whose path starts
    with one of the public paths is forwarded unverified, whatever follows
    the prefix and whatever the Authorization header holds; nothing is
    fetched and nothing is attached to the request. *)
Theorem public_prefix_bypasses_verification self request w public_path :
  public_path ∈ _public_paths self ->
  startswith (path request) public_path = true ->
  dispatch self request w = (CallNext None, self, w).
Proof.
  intros Hin Hs. unfold dispatch.
  destruct (enabled self); [| reflexivity]. cbn [negb].
  assert (_is_public_path self (path request) = true) as ->; [| reflexivity].
  apply existsb_exists. exists public_path. split; [| exact Hs].
  by apply list_elem_of_In.
Qed.

End VerifierEdges.

Section VerifierEdgeExamples.
Import Middleware Cases Sample.

Lemma jwks_outage_example :
  exists w', @_get_jwks warm_verifier (World 900000 [FetchFail] 1)
             = (Ok jwks1, warm_verifier, w')
             /\ now w' = 900000 /\ (fetches w' <= 2)%nat.
Proof.
  apply (jwks_outage_serves_cached_keys warm_verifier (World 900000 [FetchFail] 1) jwks1).
  - reflexivity.
  - intros E. discriminate (f_equal (lookup "keys") E).
  - right. by eexists.
Defined.

Lemma jwks_cold_outage_example :
  @dispatch jose appt_verifier (bearer "tok-appt") (World 1000 [] 0)
  = (JSONResponse 500 "server_error" (Text "Token validation failed due to server error"),
     appt_verifier, World 1000 [] 1).
Proof.
  apply (@jwks_outage_without_cache_is_500 jose appt_verifier (bearer "tok-appt")
           (World 1000 [] 0) "Bearer tok-appt" "Bearer" "tok-appt");
    try reflexivity.
  by left.
Defined.

Lemma jwks_fetched_once_example :
  @_get_jwks warm_verifier (World 87399 [FetchFail] 1)
  = (Ok jwks1, warm_verifier, World 87399 [FetchFail] 1).
Proof.
  apply (proj2 (jwks_fetched_once_per_duration appt_verifier world1 jwks1 []
                  ltac:(intros c t E; discriminate E) eq_refl)
           (World 87399 [FetchFail] 1)).
  vm_compute. reflexivity.
Defined.

Lemma no_bearer_header_example :
  exists err text,
    @dispatch jose appt_verifier (Req "/" (Some "Basic dXNlcjpwdw==")) world1
    = (JSONResponse 401 err (Text text), appt_verifier, world1)
    /\ (err = "unauthorized" \/ err = "invalid_request")
    /\ (err = "unauthorized" <->
        Some "Basic dXNlcjpwdw==" = None \/ Some "Basic dXNlcjpwdw==" = Some "").
Proof.
  apply (@no_bearer_header_is_401 jose appt_verifier
           (Req "/" (Some "Basic dXNlcjpwdw==")) world1); try reflexivity.
  intros auth_header scheme token E1 E2. simpl in E1. simplify_eq.
  vm_compute in E2. simplify_eq. vm_compute. discriminate.
Defined.

Lemma public_prefix_example :
  @dispatch jose appt_verifier (Req "/healthz/../admin" (Some "no token")) world1
  = (CallNext None, appt_verifier, world1).
Proof.
  apply (@public_prefix_bypasses_verification jose appt_verifier
           (Req "/healthz/../admin" (Some "no token")) world1 "/health").
  - vm_compute. apply list_elem_of_further, list_elem_of_here.
  - reflexivity.
Defined.

Lemma list_audience_example :
  (@dispatch jose_more appt_verifier (bearer "tok-list-aud") world1).1.1
  = JSONResponse 401 "invalid_token"
      (ErrorText (ValidationFailed (InvalidAudience ["APPT1"] (JList ["APPT1"])))).
Proof.
  erewrite (@list_audience_is_rejected jose_more appt_verifier (bearer "tok-list-aud")
              world1 "Bearer tok-list-aud" "Bearer" "tok-list-aud" jwks1 [key1]);
    [reflexivity | reflexivity .. | discriminate].
Defined.

Lemma jwks_entry_without_kid_example :
  (@dispatch jose appt_verifier (bearer "tok-appt")
     (World 1000 [FetchOk jwks_unnamed_first] 0)).1.1
  = JSONResponse 500 "server_error" (Text "Token validation failed due to server error").
Proof.
  erewrite (@jwks_entry_without_kid_is_500 jose appt_verifier (bearer "tok-appt")
              (World 1000 [FetchOk jwks_unnamed_first] 0)
              "Bearer tok-appt" "Bearer" "tok-appt" jwks_unnamed_first);
    reflexivity.
Defined.

End VerifierEdgeExamples.

(** * The exchanger at its edges *)

Section ExchangerEdges.
Import TokenExchange Orchestrator.
#[local] Arguments store : simpl never.
#[local] Arguments post : simpl never.
#[local] Arguments exchange_request : simpl never.
#[local] Arguments actor_token_request : simpl never.

(** A name that holds none of the four words the exchanger knows has no
    secret, whatever the environment. *)
Lemma get_agent_secret_keywords environ agent_name :
  contains "Vaccination" agent_name = false ->
  contains "Appointment" agent_name = false ->
  contains "Scheduler" agent_name = false ->
  contains "Clinic" agent_name = false ->
  _get_agent_secret environ agent_name = None.
Proof. unfold _get_agent_secret. by intros -> -> -> ->. Qed.

(** Without a secret the exchange stops before anything is sent. *)
Lemma exchange_without_secret environ self master agent_name cid scope w :
  _get_agent_secret environ agent_name = None ->
  _token_cache self !! agent_name = None ->
  exchange_token_for_agent environ self master agent_name cid scope w
  = (Raise (Exception ("No client secret configured for " +:+ agent_name +:+
                       ". Please set the appropriate APP_SECRET in .env")),
     self, w).
Proof.
  intros Hs Hc. unfold exchange_token_for_agent, _get_cached_token, perform_exchange.
  by rewrite Hc, Hs.
Qed.

(** X17: the secret of an agent is looked up by four words in its name
    ([Vaccination], [Appointment], [Scheduler], [Clinic], in this letter
    case), not in its [AgentConfig]. For a discovered and configured agent
    whose name holds none of them, [talk_to_agent] fails with every
    environment and every configuration: nothing is sent, neither to the
    identity provider nor to the agent, and the globals are unchanged. *)
Theorem agent_without_keyword_is_unreachable environ g agent_name content w agent_url
    exchanger master agent_config :
  contains "Vaccination" agent_name = false ->
  contains "Appointment" agent_name = false ->
  contains "Scheduler" agent_name = false ->
  contains "Clinic" agent_name = false ->
  KNOWN_AGENTS g !! agent_name = Some agent_url ->
  DELEGATED_TOKENS g !! agent_name = None ->
  TOKEN_EXCHANGER g = Some exchanger ->
  _token_cache exchanger !! agent_name = None ->
  MASTER_TOKEN g = Some master -> master <> "" ->
  AGENT_CONFIGS g !! agent_name = Some agent_config ->
  talk_to_agent environ g agent_name content w
  = (ExchangeFailed
       (Exception ("No client secret configured for " +:+ agent_name +:+
                   ". Please set the appropriate APP_SECRET in .env")),
     g, w).
Proof.
  intros H1 H2 H3 H4 Hk Hd He Hc Hm Hne Ha.
  unfold talk_to_agent, get_delegated_token. rewrite Hk, Hd, He, Hm, Ha.
  rewrite (truthy_nonempty _ Hne).
  rewrite (exchange_without_secret _ _ _ _ _ _ _
             (get_agent_secret_keywords environ _ H1 H2 H3 H4) Hc).
  destruct g; simpl in *. by subst.
Qed.

(** X18: when no usable token is cached and the identity provider does not
    answer the agent's client-credentials request with 200, the exchange
    stops there: that one request is all that was sent, so the master token
    has not left the orchestrator, and no token is stored.  The exchanger
    is as it was, except that an expired entry of this agent has been
    dropped on the way. *)
Theorem rejected_agent_stops_exchange environ self master agent_name cid scope w
    secret d r rest :
  _get_agent_secret environ agent_name = Some secret ->
  script w = (d, r) :: rest -> status_code r <> 200 ->
  let failed (self1 : TokenExchanger) :=
    (@Raise string (Exception ("Failed to get actor token: " +:+ text r)), self1,
     World (now w + Z.max 0 d) rest
           (log w ++ [(actor_token_request self cid secret, Some r)])) in
  (_token_cache self !! agent_name = None ->
   exchange_token_for_agent environ self master agent_name cid scope w = failed self)
  /\ (forall e,
        _token_cache self !! agent_name = Some e -> now w < expiry e -> token e = "" ->
        exchange_token_for_agent environ self master agent_name cid scope w = failed self)
  /\ (forall e,
        _token_cache self !! agent_name = Some e -> expiry e <= now w ->
        exchange_token_for_agent environ self master agent_name cid scope w
        = failed (set_cache self (delete agent_name (_token_cache self)))).
Proof.
  intros Hs Hscript Hr. cbv zeta.
  assert (forall self1 : TokenExchanger,
            token_exchange_url self1 = token_exchange_url self ->
            perform_exchange environ self1 master agent_name cid scope w
            = (Raise (Exception ("Failed to get actor token: " +:+ text r)), self1,
               World (now w + Z.max 0 d) rest
                     (log w ++ [(actor_token_request self cid secret, Some r)]))) as Hp.
  { intros self1 Hu. unfold perform_exchange, _get_actor_token. rewrite Hs.
    unfold post. rewrite Hscript. cbn [mbind result_bind].
    destruct (Z.eqb_spec (status_code r) 200); [done |]. cbn [negb].
    unfold actor_token_request. by rewrite Hu. }
  split; [| split].
  - intros Hc. unfold exchange_token_for_agent, _get_cached_token. rewrite Hc.
    by apply Hp.
  - intros e Hc Hlt Ht. unfold exchange_token_for_agent.
    rewrite (get_cached_live _ _ _ _ Hc Hlt), Ht. by apply Hp.
  - intros e Hc Hle. unfold exchange_token_for_agent.
    rewrite (get_cached_expired _ _ _ _ Hc Hle). by apply Hp.
Qed.

(** X19: the exchanger's cache is keyed by the agent's name alone. Once an
    exchange has returned a (non-empty) token, every call for the same
    agent before the recorded expiry returns that token without sending
    anything, whatever master token, client id or scope the later call
    is made with. *)
Theorem exchanged_token_is_reused_by_name environ self master agent_name cid scope w
    tok self' w' :
  exchange_token_for_agent environ self master agent_name cid scope w = (Ok tok, self', w') ->
  tok <> "" ->
  exists e,
    _token_cache self' !! agent_name = Some e /\ token e = tok
    /\ forall environ2 master2 cid2 scope2 w2,
         now w2 < expiry e ->
         exchange_token_for_agent environ2 self' master2 agent_name cid2 scope2 w2
         = (Ok tok, self', w2).
Proof.
  intros E Hne.
  assert (exists e, _token_cache self' !! agent_name = Some e /\ token e = tok) as (e & He & Ht).
  { unfold exchange_token_for_agent, _get_cached_token in E.
    destruct (_token_cache self !! agent_name) as [e |] eqn:Hc.
    - destruct (now w <? expiry e).
      + destruct (truthy (token e)) eqn:Ht.
        * simplify_eq. by exists e.
        * destruct (perform_exchange_ok _ _ _ _ _ _ _ _ _ _ E)
            as (? & ? & ? & ? & lifetime & ? & ? & _ & _ & _ & _ & _ & _ & _ & _ & _ & ->).
          eexists. split; [apply store_lookup | reflexivity].
      + destruct (perform_exchange_ok _ _ _ _ _ _ _ _ _ _ E)
          as (? & ? & ? & ? & lifetime & ? & ? & _ & _ & _ & _ & _ & _ & _ & _ & _ & ->).
        eexists. split; [apply store_lookup | reflexivity].
    - destruct (perform_exchange_ok _ _ _ _ _ _ _ _ _ _ E)
        as (? & ? & ? & ? & lifetime & ? & ? & _ & _ & _ & _ & _ & _ & _ & _ & _ & ->).
      eexists. split; [apply store_lookup | reflexivity]. }
  exists e. split; [exact He |]. split; [exact Ht |].
  intros environ2 master2 cid2 scope2 w2 Hlt. unfold exchange_token_for_agent.
  rewrite (get_cached_live _ _ _ _ He Hlt). rewrite Ht, (truthy_nonempty _ Hne).
  reflexivity.
Qed.

(** X20: [clear_cache] with an agent's name forces the next exchange for
    that agent to be a fresh one and, when the name is not empty, keeps the
    tokens of the other agents; with no name, or with the empty name, it
    drops every token. *)
Theorem clear_cache_forces_fresh_exchange environ self master agent_name cid scope w :
  exchange_token_for_agent environ (clear_cache self (Some agent_name)) master
    agent_name cid scope w
  = perform_exchange environ (clear_cache self (Some agent_name)) master
      agent_name cid scope w
  /\ (agent_name <> "" ->
      forall other, other <> agent_name ->
        _token_cache (clear_cache self (Some agent_name)) !! other
        = _token_cache self !! other)
  /\ _token_cache (clear_cache self (Some "")) = ∅
  /\ _token_cache (clear_cache self None) = ∅.
Proof.
  split; [| split; [| split; reflexivity]].
  - unfold exchange_token_for_agent, _get_cached_token, clear_cache.
    destruct (truthy agent_name); cbn [_token_cache set_cache].
    + by rewrite lookup_delete_eq.
    + by rewrite lookup_empty.
  - intros Hne other Ho. unfold clear_cache. rewrite (truthy_nonempty _ Hne).
    cbn [_token_cache set_cache]. by rewrite lookup_delete_ne.
Qed.

Lemma perform_exchange_credentials environ self master agent_name cid scope w :
  exists added,
    log (perform_exchange environ self master agent_name cid scope w).2 = log w ++ added
    /\ (length added <= 2)%nat
    /\ Forall (fun entry : request * option response =>
                 url entry.1 = token_exchange_url self
                 /\ exists secret, _get_agent_secret environ agent_name = Some secret
                                   /\ authz entry.1 = Basic cid secret) added.
Proof.
  unfold perform_exchange, _get_actor_token.
  destruct (_get_agent_secret environ agent_name) as [secret |] eqn:Hs; simpl.
  2:{ exists []. rewrite app_nil_r. split; [done |]. split; [simpl; lia | constructor]. }
  destruct (post (actor_token_request self cid secret) w) as [r w1] eqn:E1.
  pose proof (post_log _ _ _ _ E1) as L1.
  assert (forall req : request,
            url req = token_exchange_url self -> authz req = Basic cid secret ->
            url req = token_exchange_url self
            /\ exists secret0, Some secret = Some secret0 /\ authz req = Basic cid secret0)
    as Hreq by (intros req ? ?; split; [done | by exists secret]).
  destruct (r ≫= _) as [actor | e] eqn:Er; simpl.
  { destruct (post (exchange_request self master cid secret scope) w1) as [r2 w2] eqn:E2.
    pose proof (post_log _ _ _ _ E2) as L2.
    exists [(actor_token_request self cid secret, answer_of r);
            (exchange_request self master cid secret scope, answer_of r2)].
    split; [| split; [simpl; lia | repeat constructor; by apply Hreq]].
    assert (log w2 = log w ++ [(actor_token_request self cid secret, answer_of r);
                               (exchange_request self master cid secret scope,
                                answer_of r2)]) as <-
        by (rewrite L2, L1, <- app_assoc; reflexivity).
    repeat case_match; by simplify_eq. }
  exists [(actor_token_request self cid secret, answer_of r)].
  split; [by rewrite L1 | split; [simpl; lia | repeat constructor; by apply Hreq]].
Qed.

(** X6: whatever its outcome, an exchange sends at most two requests, both
    to the token endpoint and both authenticated as the agent: Basic
    authentication with the client id passed in and the secret found in the
    environment for the agent's name. The orchestrator's own client id and
    secret are not used. *)
Theorem exchange_requests_use_agent_credentials environ self master agent_name cid scope w :
  exists added,
    log (exchange_token_for_agent environ self master agent_name cid scope w).2
    = log w ++ added
    /\ (length added <= 2)%nat
    /\ Forall (fun entry : request * option response =>
                 url entry.1 = token_exchange_url self
                 /\ exists secret, _get_agent_secret environ agent_name = Some secret
                                   /\ authz entry.1 = Basic cid secret) added.
Proof.
  unfold exchange_token_for_agent, _get_cached_token.
  assert (exists added, log w = log w ++ added /\ (length added <= 2)%nat
            /\ Forall (fun entry : request * option response =>
                 url entry.1 = token_exchange_url self
                 /\ exists secret, _get_agent_secret environ agent_name = Some secret
                                   /\ authz entry.1 = Basic cid secret) added) as Hnone.
  { exists []. rewrite app_nil_r. split; [done |]. split; [simpl; lia | constructor]. }
  destruct (_token_cache self !! agent_name) as [e |].
  - destruct (now w <? expiry e).
    + destruct (truthy (token e)); [exact Hnone |].
      apply perform_exchange_credentials.
    + apply (perform_exchange_credentials environ
               (set_cache self (delete agent_name (_token_cache self)))).
  - apply perform_exchange_credentials.
Qed.

End ExchangerEdges.

Section ExchangerEdgeExamples.
Import TokenExchange Orchestrator Sample Scenarios.

Lemma agent_without_keyword_example :
  talk_to_agent environ_weather g_weather weather "Will it rain?" w0
  = (ExchangeFailed
       (Exception ("No client secret configured for " +:+ weather +:+
                   ". Please set the appropriate APP_SECRET in .env")),
     g_weather, w0).
Proof.
  apply (agent_without_keyword_is_unreachable environ_weather g_weather weather
           "Will it rain?" w0 "http://localhost:10007" exchanger0 "MASTER"
           (Config weather "WX1" "wx-secret" "weather:read"));
    try (vm_compute; reflexivity).
  discriminate.
Defined.

Lemma rejected_agent_example :
  exchange_token_for_agent environ1 (store exchanger0 vax "D1" 1000 3600) "MASTER" vax
    "VAX1" "vaccination:read" (World 5000 [(2, rejected); (0, exchange_ok)] [])
  = (Raise (Exception ("Failed to get actor token: " +:+ "invalid_client")),
     set_cache (store exchanger0 vax "D1" 1000 3600)
       (delete vax (_token_cache (store exchanger0 vax "D1" 1000 3600))),
     World (5000 + Z.max 0 2) [(0, exchange_ok)]
           ([] ++ [(actor_token_request (store exchanger0 vax "D1" 1000 3600)
                      "VAX1" "s3cret", Some rejected)])).
Proof.
  apply (proj2 (proj2
           (rejected_agent_stops_exchange environ1 (store exchanger0 vax "D1" 1000 3600)
              "MASTER" vax "VAX1" "vaccination:read"
              (World 5000 [(2, rejected); (0, exchange_ok)] [])
              "s3cret" 2 rejected [(0, exchange_ok)]
              ltac:(vm_compute; reflexivity) eq_refl ltac:(discriminate)))
           (Entry "D1" 4540)).
  - apply store_lookup.
  - vm_compute. discriminate.
Defined.

Lemma reuse_by_name_example :
  exists e,
    _token_cache (store exchanger0 vax "D1" 1000 3600) !! vax = Some e
    /\ token e = "D1"
    /\ forall environ2 master2 cid2 scope2 w2,
         now w2 < expiry e ->
         exchange_token_for_agent environ2 (store exchanger0 vax "D1" 1000 3600)
           master2 vax cid2 scope2 w2
         = (Ok "D1", store exchanger0 vax "D1" 1000 3600, w2).
Proof.
  apply (exchanged_token_is_reused_by_name environ1 exchanger0 "MASTER" vax "VAX1"
           "vaccination:read" w0 "D1" (store exchanger0 vax "D1" 1000 3600) w_exchanged).
  - vm_compute. reflexivity.
  - discriminate.
Defined.

Lemma clear_cache_example :
  _token_cache
    (clear_cache (store (store exchanger0 vax "D1" 1000 3600)
                    "Pet Clinic Scheduler" "D2" 1000 3600) (Some vax))
    !! "Pet Clinic Scheduler"
  = Some (Entry "D2" 4540).
Proof.
  rewrite (proj1 (proj2 (clear_cache_forces_fresh_exchange ∅
                           (store (store exchanger0 vax "D1" 1000 3600)
                              "Pet Clinic Scheduler" "D2" 1000 3600)
                           "MASTER" vax "VAX1" "vaccination:read" w0)))
    by discriminate.
  reflexivity.
Defined.

End ExchangerEdgeExamples.

(** * Agent configurations *)

Section AgentConfigurations.
Import TokenExchange AgentSetup Discovery.

(** X21: for the two pre-configured agents, [has_credentials] and the
    secret lookup of the exchanger agree: when [has_credentials] holds, the
    exchange authenticates with exactly the configured secret; when it
    fails although an application id is set, the exchanger finds no secret
    either (and the exchange stops before sending anything). *)
Theorem preconfigured_credentials_match_secret environ agent_config :
  agent_config ∈ [get_vaccination_agent_config environ;
                  get_appointments_agent_config environ] ->
  (has_credentials agent_config = true ->
   _get_agent_secret environ (name agent_config) = Some (app_secret agent_config))
  /\ (app_id agent_config <> "" -> has_credentials agent_config = false ->
      _get_agent_secret environ (name agent_config) = None).
Proof.
  intros Hin. apply list_elem_of_In in Hin.
  destruct Hin as [<- | [<- | []]];
    unfold has_credentials, _get_agent_secret,
      get_vaccination_agent_config, get_appointments_agent_config;
    cbn [name app_id app_secret].
  - change (contains "Vaccination" "Pet Vaccination Assistant") with true. cbv iota.
    destruct (environ !! "VACCINATION_APP_SECRET") as [secret |]; cbn [default].
    + split.
      * intros H. apply andb_prop in H as [H1 H3]. apply andb_prop in H1 as [_ H2].
        by rewrite H2, H3.
      * intros Hid H. rewrite (truthy_nonempty _ Hid) in H. cbn [andb] in H.
        by rewrite H.
    + split; [| done]. intros H. apply andb_prop in H as [_ H]. discriminate H.
  - change (contains "Vaccination" "Pet Clinic Scheduler") with false.
    change (contains "Appointment" "Pet Clinic Scheduler") with false.
    change (contains "Scheduler" "Pet Clinic Scheduler") with true.
    cbv iota. cbn [orb].
    destruct (environ !! "APPOINTMENTS_APP_SECRET") as [secret |]; cbn [default].
    + split.
      * intros H. apply andb_prop in H as [H1 H3]. apply andb_prop in H1 as [_ H2].
        by rewrite H2, H3.
      * intros Hid H. rewrite (truthy_nonempty _ Hid) in H. cbn [andb] in H.
        by rewrite H.
    + split; [| done]. intros H. apply andb_prop in H as [_ H]. discriminate H.
Qed.

(** The loop of [get_agent_config_from_env] returns what one pattern's
    variables hold. *)
Lemma try_patterns_found environ patterns tried app_id app_secret required_scope vars :
  try_patterns environ patterns tried = (Some app_id, app_secret, required_scope, vars) ->
  exists pattern,
    pattern ∈ patterns /\ vars = pattern_vars pattern
    /\ environ !! (pattern +:+ "_APP_ID") = Some app_id /\ is_valid app_id = true
    /\ (forall s, app_secret = Some s ->
          environ !! (pattern +:+ "_APP_SECRET") = Some s /\ is_valid s = true)
    /\ (forall s, required_scope = Some s ->
          environ !! (pattern +:+ "_REQUIRED_SCOPE") = Some s /\ is_valid s = true).
Proof.
  revert tried. induction patterns as [| pattern rest IH]; intros tried E.
  - discriminate E.
  - cbn [try_patterns] in E.
    destruct (is_valid (default "" (environ !! (pattern +:+ "_APP_ID")))) eqn:Hid.
    + exists pattern. split; [apply list_elem_of_here |].
      assert (forall (o : option string) s,
                (if is_valid (default "" o) then Some (default "" o) else None) = Some s ->
                o = Some s /\ is_valid s = true) as Hread.
      { intros [v |] s.
        - change (default "" (Some v)) with v.
          destruct (is_valid v) eqn:Hv; intros Es; by simplify_eq.
        - intros Es. vm_compute in Es. discriminate Es. }
      injection E as <- <- <- <-.
      split; [reflexivity |].
      destruct (Hread (environ !! (pattern +:+ "_APP_ID"))
                  (default "" (environ !! (pattern +:+ "_APP_ID")))) as [Ha Hv].
      { by rewrite Hid. }
      split; [exact Ha |]. split; [exact Hv |].
      split; intros s Es; by apply Hread.
    + destruct (IH _ E) as (p & Hin & Hrest). exists p.
      split; [by apply list_elem_of_further | exact Hrest].
Qed.

(** X22: whatever [get_agent_config_from_env] finds comes from the three
    variables of one and the same naming pattern of the agent's name: the
    application id is set and is no [<placeholder>], and a secret or scope
    is returned only if it is set and no placeholder either. *)
Theorem discovered_configuration_is_valid environ agent_name app_id app_secret
    required_scope vars :
  get_agent_config_from_env environ agent_name
  = Some (Some app_id, app_secret, required_scope, vars) ->
  exists patterns pattern,
    patterns_of agent_name = Some patterns
    /\ pattern ∈ patterns /\ vars = pattern_vars pattern
    /\ environ !! (pattern +:+ "_APP_ID") = Some app_id /\ is_valid app_id = true
    /\ (forall s, app_secret = Some s ->
          environ !! (pattern +:+ "_APP_SECRET") = Some s /\ is_valid s = true)
    /\ (forall s, required_scope = Some s ->
          environ !! (pattern +:+ "_REQUIRED_SCOPE") = Some s /\ is_valid s = true).
Proof.
  unfold get_agent_config_from_env. intros E.
  destruct (patterns_of agent_name) as [patterns |]; [| discriminate E].
  cbn in E. injection E as E.
  destruct (try_patterns_found _ _ _ _ _ _ _ E) as (pattern & H).
  by exists patterns, pattern.
Qed.

Lemma derive_env_var_name_none agent_name suffix :
  derive_env_var_name agent_name suffix = None <-> split agent_name = [].
Proof.
  unfold derive_env_var_name.
  destruct (split agent_name) as [| word words]; [done |].
  destruct (significant ignore_words (word :: words)); done.
Qed.

Lemma split_from_some c s : split_from (Some c) s <> [].
Proof.
  revert c. induction s as [| a s IH]; intros c; simpl; [done |].
  destruct (is_space a); [done | apply IH].
Qed.

(** A string has no word exactly when it holds nothing but white space. *)
Lemma split_blank s : split s = [] <-> blank s = true.
Proof.
  unfold split. induction s as [| a s IH]; simpl; [done |].
  destruct (is_space a); simpl; [exact IH |].
  split; [intros E; by apply split_from_some in E | done].
Qed.

(** X23: for agent names of ASCII characters, [derive_env_var_name] and
    [get_agent_config_from_env] raise [IndexError] exactly when the name
    holds nothing but white space (the empty name included); for every
    other such name, and every environment, they return. *)
Theorem discovery_raises_on_wordless_names environ agent_name suffix :
  ascii_only agent_name = true ->
  (derive_env_var_name agent_name suffix = None <-> blank agent_name = true)
  /\ (get_agent_config_from_env environ agent_name = None <-> blank agent_name = true).
Proof.
  intros _. rewrite <- split_blank. split; [apply derive_env_var_name_none |].
  rewrite <- (derive_env_var_name_none agent_name "").
  unfold get_agent_config_from_env, patterns_of.
  destruct (derive_env_var_name agent_name ""); done.
Qed.

(** X24: for an agent whose name holds [clinic], [scheduler] or
    [appointment] (in any letter case), the variables of the appointments
    agent are tried first: when APPOINTMENTS_APP_ID is set and valid, the
    configuration returned is the one of the appointments agent, whatever
    the variables derived from the agent's own name hold. *)
Theorem appointments_alias_takes_precedence environ agent_name app_id :
  split agent_name <> [] ->
  existsb (fun word => contains word (lower agent_name))
          ["clinic"; "scheduler"; "appointment"] = true ->
  environ !! "APPOINTMENTS_APP_ID" = Some app_id ->
  is_valid app_id = true ->
  get_agent_config_from_env environ agent_name
  = Some (Some app_id,
          (let app_secret := default "" (environ !! "APPOINTMENTS_APP_SECRET") in
           if is_valid app_secret then Some app_secret else None),
          (let required_scope :=
             default "" (environ !! "APPOINTMENTS_REQUIRED_SCOPE") in
           if is_valid required_scope then Some required_scope else None),
          ["APPOINTMENTS_APP_ID"; "APPOINTMENTS_APP_SECRET";
           "APPOINTMENTS_REQUIRED_SCOPE"]).
Proof.
  intros Hw Halias Hid Hv. unfold get_agent_config_from_env, patterns_of.
  destruct (derive_env_var_name agent_name "") as [primary |] eqn:Hd.
  2:{ by apply derive_env_var_name_none in Hd. }
  cbn [mbind option_bind]. rewrite Halias. cbn [try_patterns].
  change ("APPOINTMENTS" +:+ "_APP_ID") with "APPOINTMENTS_APP_ID".
  change ("APPOINTMENTS" +:+ "_APP_SECRET") with "APPOINTMENTS_APP_SECRET".
  change ("APPOINTMENTS" +:+ "_REQUIRED_SCOPE") with "APPOINTMENTS_REQUIRED_SCOPE".
  rewrite Hid. change (default "" (Some app_id)) with app_id. rewrite Hv.
  reflexivity.
Qed.

End AgentConfigurations.

Section AgentConfigurationExamples.
Import TokenExchange AgentSetup Discovery Sample Scenarios.

Lemma preconfigured_credentials_example :
  _get_agent_secret environ1 vax = Some "s3cret".
Proof.
  apply (proj1 (preconfigured_credentials_match_secret environ1
                  (get_vaccination_agent_config environ1)
                  ltac:(apply list_elem_of_here))).
  vm_compute. reflexivity.
Defined.

Lemma wordless_name_example :
  get_agent_config_from_env environ_weather "   " = None.
Proof.
  apply (proj2 (discovery_raises_on_wordless_names environ_weather "   " "_APP_ID"
                  eq_refl)).
  reflexivity.
Defined.

Lemma discovered_configuration_example :
  exists patterns pattern,
    patterns_of weather = Some patterns
    /\ pattern ∈ patterns
    /\ pattern_vars "WEATHER" = pattern_vars pattern
    /\ environ_weather !! (pattern +:+ "_APP_ID") = Some "WX1"
    /\ is_valid "WX1" = true
    /\ (forall s, Some "wx-secret" = Some s ->
          environ_weather !! (pattern +:+ "_APP_SECRET") = Some s /\ is_valid s = true)
    /\ (forall s, Some "weather:read" = Some s ->
          environ_weather !! (pattern +:+ "_REQUIRED_SCOPE") = Some s
          /\ is_valid s = true).
Proof.
  apply (discovered_configuration_is_valid environ_weather weather "WX1"
           (Some "wx-secret") (Some "weather:read") (pattern_vars "WEATHER")).
  vm_compute. reflexivity.
Defined.

Lemma appointments_alias_example :
  get_agent_config_from_env
    {[ "DENTAL_APP_ID" := "DENT1"; "DENTAL_REQUIRED_SCOPE" := "dental:read";
       "APPOINTMENTS_APP_ID" := "APPT1" ]} "Dental Clinic Bot"
  = Some (Some "APPT1", None, None,
          ["APPOINTMENTS_APP_ID"; "APPOINTMENTS_APP_SECRET";
           "APPOINTMENTS_REQUIRED_SCOPE"]).
Proof.
  rewrite (appointments_alias_takes_precedence
             {[ "DENTAL_APP_ID" := "DENT1"; "DENTAL_REQUIRED_SCOPE" := "dental:read";
                "APPOINTMENTS_APP_ID" := "APPT1" ]} "Dental Clinic Bot" "APPT1");
    try (vm_compute; reflexivity).
  vm_compute. discriminate.
Defined.

End AgentConfigurationExamples.

(** * The device flow at its edges *)

Section DeviceFlowEdges.
Import UserAuth MasterTokenRefresh Scenarios.
#[local] Arguments post : simpl never.
#[local] Arguments poll_request : simpl never.
#[local] Arguments device_request : simpl never.
#[local] Arguments refresh_request : simpl never.

Lemma polling_time_nonneg interval answers : 0 <= polling_time interval answers.
Proof. induction answers as [| [d r] rest IH]; simpl; lia. Qed.

Lemma poll_loop_pending_rounds self device_code interval timeout start_time pendings
    d ok token_data rest :
  Forall (fun answer : Z * response => pending answer.2) pendings ->
  status_code ok = 200 -> json ok = Some token_data ->
  forall time sent,
    time - start_time + polling_time interval pendings <= timeout ->
    poll_loop self device_code timeout start_time (pendings ++ (d, ok) :: rest)
      (JNum interval) time sent
    = (Ok token_data,
       World (time + polling_time interval pendings + Z.max 0 d) rest
         (sent ++ polls self device_code pendings
            ++ [(poll_request self device_code, Some ok)])).
Proof.
  intros Hp Hs Hj. induction Hp as [| [d1 p1] pendings Hp1 _ IH]; intros time sent Ht.
  - cbn [polling_time foldr] in *. cbn [app polls fmap list_fmap].
    rewrite (poll_loop_success _ _ _ _ _ _ token_data) by (done || lia).
    by rewrite Z.add_0_r.
  - cbn [polling_time foldr fst] in Ht. fold (polling_time interval pendings) in Ht.
    pose proof (polling_time_nonneg interval pendings).
    rewrite <- app_comm_cons.
    rewrite poll_loop_pending by (done || lia).
    rewrite IH by lia.
    cbn [polling_time foldr fst]. fold (polling_time interval pendings).
    cbn [polls fmap list_fmap snd]. fold (polls self device_code pendings).
    rewrite <- !app_assoc. cbn [app]. do 2 f_equal. lia.
Qed.

(** X25: however many times the token endpoint answers
    [authorization_pending], as long as the waiting fits within the
    timeout, [poll_for_token] goes on, one request and one sleep of
    [interval] seconds per answer, and returns the body of the first 200
    answer; it has then sent exactly one poll request per answer consumed. *)
Theorem polling_waits_through_pending self device_code interval timeout w pendings
    d ok token_data rest :
  script w = pendings ++ (d, ok) :: rest ->
  Forall (fun answer : Z * response => pending answer.2) pendings ->
  status_code ok = 200 -> json ok = Some token_data ->
  polling_time interval pendings <= timeout ->
  poll_for_token self device_code (JNum interval) timeout w
  = (Ok token_data,
     World (now w + polling_time interval pendings + Z.max 0 d) rest
       (log w ++ polls self device_code pendings
          ++ [(poll_request self device_code, Some ok)])).
Proof.
  intros Hscript Hp Hs Hj Ht. unfold poll_for_token. rewrite Hscript.
  apply poll_loop_pending_rounds; (done || lia).
Qed.

(** X26: when the device-authorization endpoint answers 400 or 401, the
    retry with Basic authentication is never sent: the method raises
    [NameError] after its first and only request, and [authenticate_user]
    passes the error on with the authenticator unchanged. *)
Theorem device_flow_retry_never_happens self w d r rest :
  get_cached_token self (now w) = None ->
  script w = (d, r) :: rest ->
  status_code r = 400 \/ status_code r = 401 ->
  authenticate_user self w
  = (Raise (NameError "base64"), self,
     World (now w + Z.max 0 d) rest (log w ++ [(device_request self, Some r)])).
Proof.
  intros Hc Hscript Hr. unfold authenticate_user, initiate_device_flow. rewrite Hc.
  unfold post. rewrite Hscript. cbn [mbind result_bind].
  assert (((status_code r =? 401) || (status_code r =? 400))%bool = true) as ->;
    [| reflexivity].
  destruct Hr as [-> | ->]; reflexivity.
Qed.

(** What a successful refresh does. *)
Lemma refresh_master_token_ok self w d r rest token_data master lifetime :
  truthy_val (_refresh_token self) = true ->
  script w = (d, r) :: rest ->
  200 <= status_code r < 300 ->
  json r = Some token_data ->
  token_data !! "access_token" = Some master ->
  expires_in token_data = Ok lifetime ->
  refresh_master_token self w
  = (Ok master,
     set_tokens self master
       (default (_refresh_token self) (token_data !! "refresh_token"))
       (Some (now w + Z.max 0 d + lifetime)),
     World (now w + Z.max 0 d) rest (log w ++ [(refresh_request self, Some r)])).
Proof.
  intros Hr Hscript Hst Hj Ha He. unfold refresh_master_token. rewrite Hr. cbn [negb].
  unfold post. rewrite Hscript. unfold raise_for_status.
  destruct (Z.leb_spec 200 (status_code r)); [| lia].
  destruct (Z.ltb_spec (status_code r) 300); [| lia].
  cbn [andb mbind result_bind]. unfold json_of, item. rewrite Hj, Ha, He.
  reflexivity.
Qed.

(** X27: a refresh that succeeds replaces the master token and its
    expiry, keeps the old refresh token when the answer brings none, and
    from then on [authenticate_user] returns the new token without sending
    anything, until five minutes before the new expiry. *)
Theorem refreshed_token_is_served_from_cache self w d r rest token_data master lifetime :
  truthy_val (_refresh_token self) = true ->
  script w = (d, r) :: rest ->
  200 <= status_code r < 300 ->
  json r = Some token_data ->
  token_data !! "access_token" = Some master ->
  truthy_val master = true ->
  expires_in token_data = Ok lifetime ->
  exists self1,
    refresh_master_token self w
    = (Ok master, self1,
       World (now w + Z.max 0 d) rest (log w ++ [(refresh_request self, Some r)]))
    /\ (token_data !! "refresh_token" = None -> _refresh_token self1 = _refresh_token self)
    /\ forall w2, 0 <= now w2 -> now w2 < now w + Z.max 0 d + lifetime - 300 ->
         authenticate_user self1 w2 = (Ok master, self1, w2).
Proof.
  intros Hr Hscript Hst Hj Ha Ht He. eexists. split; [| split].
  - by apply (refresh_master_token_ok _ _ _ _ _ token_data master lifetime).
  - intros Hn. cbn [_refresh_token set_tokens]. by rewrite Hn.
  - intros w2 H0 Hlt. unfold authenticate_user.
    rewrite (get_cached_token_hit _ (now w2) (now w + Z.max 0 d + lifetime))
      by (done || lia).
    reflexivity.
Qed.

End DeviceFlowEdges.

Section DeviceFlowEdgeExamples.
Import UserAuth MasterTokenRefresh Sample Scenarios.

Lemma polling_waits_example :
  poll_for_token user0 (JStr "dev-1") (JNum 5) 300
    (World 1000 (replicate 5 (1, pending_answer) ++ [(2, login_ok "MASTER-1")]) [])
  = (Ok {[ "access_token" := JStr "MASTER-1"; "expires_in" := JNum 3600 ]},
     World (1000 + polling_time 5 (replicate 5 (1, pending_answer)) + Z.max 0 2) []
       ([] ++ polls user0 (JStr "dev-1") (replicate 5 (1, pending_answer))
          ++ [(poll_request user0 (JStr "dev-1"), Some (login_ok "MASTER-1"))])).
Proof.
  apply (polling_waits_through_pending user0 (JStr "dev-1") 5 300
           (World 1000 (replicate 5 (1, pending_answer) ++ [(2, login_ok "MASTER-1")]) [])
           (replicate 5 (1, pending_answer)) 2 (login_ok "MASTER-1")).
  - reflexivity.
  - repeat constructor; (discriminate || by eexists).
  - reflexivity.
  - reflexivity.
  - vm_compute. discriminate.
Defined.

Lemma device_flow_retry_example :
  authenticate_user user0 (World 1000 [(0, Response 401 "" None); (0, device_ok)] [])
  = (Raise (NameError "base64"), user0,
     World (1000 + Z.max 0 0) [(0, device_ok)]
       ([] ++ [(device_request user0, Some (Response 401 "" None))])).
Proof.
  apply (device_flow_retry_never_happens user0
           (World 1000 [(0, Response 401 "" None); (0, device_ok)] [])
           0 (Response 401 "" None) [(0, device_ok)]).
  - reflexivity.
  - reflexivity.
  - by right.
Defined.

Lemma refreshed_token_example :
  exists self1,
    refresh_master_token user_logged_in (World 4400 [(0, refresh_ok)] [])
    = (Ok (JStr "MASTER-2"), self1,
       World (4400 + Z.max 0 0) [] ([] ++ [(refresh_request user_logged_in, Some refresh_ok)]))
    /\ (({[ "access_token" := JStr "MASTER-2"; "expires_in" := JNum 3600 ]} : dict)
          !! "refresh_token" = None ->
        _refresh_token self1 = JStr "REFRESH-1")
    /\ forall w2, 0 <= now w2 -> now w2 < 4400 + Z.max 0 0 + 3600 - 300 ->
         authenticate_user self1 w2 = (Ok (JStr "MASTER-2"), self1, w2).
Proof.
  apply (refreshed_token_is_served_from_cache user_logged_in
           (World 4400 [(0, refresh_ok)] []) 0 refresh_ok []
           {[ "access_token" := JStr "MASTER-2"; "expires_in" := JNum 3600 ]}
           (JStr "MASTER-2") 3600);
    try (vm_compute; reflexivity).
  vm_compute. split; [discriminate | reflexivity].
Defined.

End DeviceFlowEdgeExamples.

(** * The browser callback and the delegation flow *)

Section BrowserCallback.
Import BrowserAuth Delegation.
Context `{P : PyJWT}.
#[local] Arguments post : simpl never.
#[local] Arguments code_exchange_request : simpl never.
#[local] Arguments code_exchange_with_actor_request : simpl never.
#[local] Arguments actor_token_request : simpl never.

(** X28: what the callback brings decides the login. An [error]
    parameter makes [authenticate_user] raise before anything is sent, even
    when a code came with it; a code without an error is exchanged at the
    token endpoint, whatever [state] the callback carries (it is never
    compared with the one sent); a callback with neither, like no callback
    at all, is a failure without any request. *)
Theorem callback_decides_login self code_verifier q w :
  (forall e more, q !! "error" = Some (e, more) -> e <> "" ->
     authenticate_user self code_verifier (handle_request (Some q) reset_handler) w
     = (Raise (Exception "Asgardeo error"), self, w))
  /\ (forall code more,
        q !! "error" = None -> q !! "code" = Some (code, more) -> code <> "" ->
        exists answer,
          log (authenticate_user self code_verifier
                 (handle_request (Some q) reset_handler) w).2
          = log w ++ [(code_exchange_request self code code_verifier, answer)])
  /\ (q !! "error" = None -> q !! "code" = None ->
      authenticate_user self code_verifier (handle_request (Some q) reset_handler) w
      = (Raise (Exception "Failed to receive authorization code"), self, w))
  /\ authenticate_user self code_verifier (handle_request None reset_handler) w
     = (Raise (Exception "Failed to receive authorization code"), self, w).
Proof.
  unfold handle_request, do_GET. split; [| split; [| split]].
  - intros e more -> Hne. cbn [fst]. unfold authenticate_user. cbn [error opt_truthy].
    by rewrite (truthy_nonempty _ Hne).
  - intros code more -> -> Hne. cbn [fst].
    apply browser_flow_always_exchanges; [reflexivity | reflexivity |].
    by apply truthy_nonempty.
  - by intros -> ->.
  - reflexivity.
Qed.

(** What the two requests of the delegation flow are, when it returns. *)
Lemma delegation_flow_ok self actor_client_id actor_client_secret requested_scope
    scopes jti code_verifier arrival handler w tok handler' w' :
  authenticate_user_with_delegation self actor_client_id actor_client_secret
    requested_scope scopes jti code_verifier arrival handler w = (Ok tok, handler', w') ->
  exists r1 d1 actor_token auth_code r2 w1,
    post (actor_token_request self actor_client_id actor_client_secret scopes jti (now w)) w
    = (Ok r1, w1)
    /\ status_code r1 = 200 /\ json r1 = Some d1
    /\ d1 !! "access_token" = Some (JStr actor_token)
    /\ authorization_code handler' = Some auth_code
    /\ post (code_exchange_with_actor_request self auth_code code_verifier actor_token) w1
       = (Ok r2, w')
    /\ status_code r2 = 200 /\ json_of r2 ≫= access_token = Ok tok.
Proof.
  unfold authenticate_user_with_delegation, _get_actor_token. intros E.
  destruct (post (actor_token_request self actor_client_id actor_client_secret scopes
                    jti (now w)) w) as [r w1] eqn:E1.
  destruct r as [r1 | e]; cbn [mbind result_bind] in E; [| discriminate E].
  destruct (Z.eqb_spec (status_code r1) 200) as [S1 | S1]; cbn [negb] in E;
    [| discriminate E].
  unfold json_of, item in E.
  destruct (json r1) as [d1 |] eqn:J1; cbn [mbind result_bind] in E; [| discriminate E].
  destruct (d1 !! "access_token") as [[| n | actor_token | l] |] eqn:A1;
    try discriminate E.
  unfold _get_authorization_code_with_actor in E.
  destruct (authorization_code (handle_request arrival _)) as [auth_code |] eqn:Hcode;
    cbn [opt_truthy] in E; [| discriminate E].
  destruct (truthy auth_code); [| discriminate E].
  change (default "" (Some auth_code)) with auth_code in E.
  unfold _exchange_code_with_actor_token in E.
  destruct (post (code_exchange_with_actor_request self auth_code code_verifier
                    actor_token) w1) as [r w2] eqn:E2.
  cbv beta iota zeta in E. injection E as Er <- <-.
  destruct r as [r2 | e]; cbn [mbind result_bind] in Er; [| discriminate Er].
  destruct (Z.eqb_spec (status_code r2) 200) as [S2 | S2]; cbn [negb] in Er;
    [| discriminate Er].
  exists r1, d1, actor_token, auth_code, r2, w1. by repeat split.
Qed.

(** X29: in the delegation flow the actor token is presented. Whenever
    [authenticate_user_with_delegation] returns a token, exactly two
    requests were sent: the client-credentials request with the signed
    assertion, answered with the actor token, and the exchange of the
    authorization code that the callback brought, whose [actor_token] field
    is that very token. *)
Theorem delegation_presents_minted_actor_token self actor_client_id actor_client_secret
    requested_scope scopes jti code_verifier arrival handler w tok handler' w' :
  authenticate_user_with_delegation self actor_client_id actor_client_secret
    requested_scope scopes jti code_verifier arrival handler w = (Ok tok, handler', w') ->
  exists r1 d1 actor_token auth_code r2,
    log w'
    = log w ++ [(actor_token_request self actor_client_id actor_client_secret scopes
                   jti (now w), Some r1);
                (code_exchange_with_actor_request self auth_code code_verifier
                   actor_token, Some r2)]
    /\ json r1 = Some d1 /\ d1 !! "access_token" = Some (JStr actor_token)
    /\ field (code_exchange_with_actor_request self auth_code code_verifier actor_token)
         "actor_token" = Some (JStr actor_token)
    /\ field (code_exchange_with_actor_request self auth_code code_verifier actor_token)
         "code" = Some (JStr auth_code)
    /\ authorization_code (handle_request arrival
                             (Callback None (error handler) (error_description handler)))
       = Some auth_code
    /\ json_of r2 ≫= access_token = Ok tok.
Proof.
  intros E.
  assert (handler' = handle_request arrival
                       (Callback None (error handler) (error_description handler))) as Hh.
  { unfold authenticate_user_with_delegation, _get_authorization_code_with_actor in E.
    repeat case_match; by simplify_eq. }
  destruct (delegation_flow_ok _ _ _ _ _ _ _ _ _ _ _ _ _ E)
    as (r1 & d1 & actor_token & auth_code & r2 & w1 & E1 & _ & J1 & A1 & Hc & E2 & _ & T).
  exists r1, d1, actor_token, auth_code, r2.
  apply post_log in E1, E2. rewrite E2, E1, <- app_assoc. subst handler'.
  repeat split; try done.
Qed.

End BrowserCallback.

Section FailClosed.
Import TokenExchange Orchestrator.

(** X30: without a stored token for the agent, [talk_to_agent] needs an
    exchanger, a non-empty master token and a configuration of the agent:
    if one of them is missing it returns an error string, sends nothing
    (neither to the identity provider nor to the agent) and leaves the
    globals as they were. *)
Theorem talk_to_agent_fails_closed environ g agent_name content w :
  DELEGATED_TOKENS g !! agent_name = None ->
  TOKEN_EXCHANGER g = None \/ MASTER_TOKEN g = None \/ MASTER_TOKEN g = Some ""
  \/ AGENT_CONFIGS g !! agent_name = None ->
  exists o, talk_to_agent environ g agent_name content w = (o, g, w)
            /\ (o = NotAvailable \/ o = ConfigurationMissing).
Proof.
  intros Hd Hm. unfold talk_to_agent.
  destruct (KNOWN_AGENTS g !! agent_name) as [agent_url |]; [| by eexists; eauto].
  assert (get_delegated_token environ g agent_name w = (inl ConfigurationMissing, g, w))
    as ->; [| by eexists; eauto].
  unfold get_delegated_token. rewrite Hd.
  destruct Hm as [-> | [-> | [-> | ->]]]; try reflexivity.
  - by destruct (TOKEN_EXCHANGER g).
  - destruct (TOKEN_EXCHANGER g); [| reflexivity].
    by destruct (AGENT_CONFIGS g !! agent_name).
  - destruct (TOKEN_EXCHANGER g); [| reflexivity].
    by destruct (MASTER_TOKEN g).
Qed.

End FailClosed.

Section BrowserCallbackExamples.
Import TokenExchange Orchestrator BrowserAuth Delegation Sample Scenarios.

Lemma callback_error_example :
  authenticate_user browser0 "verifier-1"
    (handle_request (Some callback_with_error) reset_handler) w0
  = (Raise (Exception "Asgardeo error"), browser0, w0).
Proof.
  apply (proj1 (callback_decides_login browser0 "verifier-1" callback_with_error w0)
           "access_denied" []).
  - reflexivity.
  - discriminate.
Defined.

Lemma delegation_example :
  exists r1 d1 actor_token auth_code r2,
    log delegation_run.2
    = [] ++ [(@actor_token_request jwt_stub browser0 "VAX1" "s3cret" ["vaccination:read"]
                "jti-1" 1000, Some r1);
             (code_exchange_with_actor_request browser0 auth_code "verifier-1"
                actor_token, Some r2)]
    /\ json r1 = Some d1 /\ d1 !! "access_token" = Some (JStr actor_token)
    /\ field (code_exchange_with_actor_request browser0 auth_code "verifier-1"
                actor_token) "actor_token" = Some (JStr actor_token)
    /\ field (code_exchange_with_actor_request browser0 auth_code "verifier-1"
                actor_token) "code" = Some (JStr auth_code)
    /\ authorization_code (handle_request (Some callback_with_code)
                             (Callback None None None)) = Some auth_code
    /\ json_of r2 ≫= access_token = Ok "DELEGATED-1".
Proof.
  apply (@delegation_presents_minted_actor_token jwt_stub browser0 "VAX1" "s3cret"
           "vaccination:read" ["vaccination:read"] "jti-1" "verifier-1"
           (Some callback_with_code) reset_handler
           (World 1000 [(0, actor_minted); (0, delegated_ok)] [])
           "DELEGATED-1" delegation_run.1.2 delegation_run.2).
  vm_compute. reflexivity.
Defined.

Lemma fails_closed_example :
  exists o, talk_to_agent environ1 g_unauthenticated vax "Which shots?" w0
            = (o, g_unauthenticated, w0)
            /\ (o = NotAvailable \/ o = ConfigurationMissing).
Proof.
  apply (talk_to_agent_fails_closed environ1 g_unauthenticated vax "Which shots?" w0).
  - reflexivity.
  - by left.
Defined.

End BrowserCallbackExamples.
